(** * Trading bot: moving-average crossover signals and trade lifecycle

    A shallow embedding of [strategy.py] (the signal generator) and
    [trade.py] (the [TradeExecutor] class) together with the properties of
    the specification that concern them.

    Python floats are IEEE-754 binary64 numbers; they are modelled by the
    standard library's [spec_float] with precision 53 and maximal exponent
    1024, whose operations round to nearest-even as the hardware does.
    Python dictionaries are finite maps ([gmap]); the MetaTrader terminal,
    the system clock and the logger are effects of a small
    state-exception-output monad. *)

From Stdlib Require Import ZArith List Bool.
From Stdlib Require Import Floats.SpecFloat.
From stdpp Require Import gmap strings list fin_maps.

Open Scope string_scope.
Open Scope list_scope.
Open Scope Z_scope.

(* ===================================================================== *)
(** * Binary64 arithmetic *)
(* ===================================================================== *)

Module F64.

Definition prec : Z := 53.
Definition emax : Z := 1024.

Definition float := spec_float.

Definition nan : float := S754_nan.

(** [float(z)] for a Python integer [z]: the nearest double. *)
Definition of_int (z : Z) : float := binary_normalize prec emax z 0 false.

Definition add (x y : float) : float := SFadd prec emax x y.
Definition sub (x y : float) : float := SFsub prec emax x y.
Definition mul (x y : float) : float := SFmul prec emax x y.
Definition div (x y : float) : float := SFdiv prec emax x y.
Definition abs (x : float) : float := SFabs x.
Definition opp (x : float) : float := SFopp x.

(** C's [signbit]: set for negative numbers and for [-0.0]. *)
Definition signbit (x : float) : bool :=
match x with
| S754_zero s | S754_infinity s | S754_finite s _ _ => s
| S754_nan => false
end.

(** [numpy.isinf] *)
Definition is_inf (x : float) : bool :=
match x with
| S754_infinity _ => true
| _ => false
end.

(** Python's [x == y], [x < y], [x <= y]; [x > y] is [ltb y x] and
    [x >= y] is [leb y x]. Every comparison with a NaN is false. *)
Definition eqb (x y : float) : bool := SFeqb x y.
Definition ltb (x y : float) : bool := SFltb x y.
Definition leb (x y : float) : bool := SFleb x y.
Definition gtb (x y : float) : bool := ltb y x.
Definition geb (x y : float) : bool := leb y x.

End F64.

Abbreviation float := F64.float.

(* ===================================================================== *)
(** * Data exchanged with the MetaTrader terminal *)
(* ===================================================================== *)

(** [mt5.ORDER_TYPE_BUY] and [mt5.ORDER_TYPE_SELL]; a position's [type]
    is one of the two. *)
Inductive OrderType := ORDER_TYPE_BUY | ORDER_TYPE_SELL.

#[global] Instance OrderType_eq_dec : EqDecision OrderType.
Proof. solve_decision. Defined.

(** An element of the tuple returned by [mt5.positions_get]. *)
Record Position := {
  ticket : Z;
  type : OrderType;
  price_open : float;
  volume : float;
  magic : Z
}.

(** Result of [mt5.symbol_info_tick]. *)
Record Tick := { bid : float; ask : float }.

(** The request dictionary handed to [mt5.order_send]. The keys
    ["position"], ["magic"] and ["comment"] are present only in closing
    requests; ["action"] is always [TRADE_ACTION_DEAL]. *)
Record Request := {
  rq_symbol : string;
  rq_volume : float;
  rq_type : OrderType;
  rq_position : option Z;
  rq_price : float;
  rq_deviation : Z;
  rq_magic : option Z;
  rq_comment : option string
}.

(** Result of [mt5.order_send]. *)
Record OrderSendResult := { retcode : Z; order : Z }.

Definition TRADE_RETCODE_DONE : Z := 10009.

(** The terminal, together with the system clock, is the environment of
    the program. Its state is owned by the broker and may change between
    any two calls, so every call returns the environment that follows it.
    [positions_get], [symbol_info_tick] and [order_send] return [None]
    where the Python API returns [None]; [datetime_now] is the clock, in
    microseconds. *)
Class Terminal (E : Type) := {
  positions_get : string -> E -> option (list Position) * E;
  symbol_info_tick : string -> E -> option Tick * E;
  order_send : Request -> E -> option OrderSendResult * E;
  datetime_now : E -> Z * E
}.

(* ===================================================================== *)
(** * Effects: exceptions and the output of a call *)
(* ===================================================================== *)

Inductive Exn :=
| KeyError (key : string)
| DataError
| TypeError
| AttributeError.

(** Records written by [logging]; the formatted text is abstracted to
    the statement that wrote it and the values it mentions. *)
Inductive LogMsg :=
| ApplyingStrategy (rows : nat)
| GeneratedSignal (sig : string) (index : nat)
| TrendStrength (strength : float)
| StrategyApplied
| ErrorApplyingStrategy (e : Exn)
| IgnoringSameAsPrevious (sig : string)
| IgnoringAlreadyInPosition (sig : string)
| ClosingToOpen (current sig : string)
| InvalidSignal
| Opened (sig : string) (res : OrderSendResult)
| TradeOperationFailed (res : OrderSendResult)
| ClosingProfitable (tk : Z) (profit : float)
| ClosingAtStopLoss (tk : Z) (profit : float)
| ClosingAtProfitTarget (tk : Z) (profit : float)
| ErrorInManageTrades (e : Exn)
| NoOpenPositions (symbol : string)
| FailedToClose (tk : Z) (res : OrderSendResult)
| Closed (tk : Z) (res : OrderSendResult)
| ErrorWhileClosing (e : Exn).

(** What a call does that the outside can observe: the log records it
    writes, and the calls it makes to the terminal with their answers. *)
Inductive Event :=
| EvLog (msg : LogMsg)
| EvPositionsGet (symbol : string) (answer : option (list Position))
| EvTick (symbol : string) (answer : option Tick)
| EvOrderSend (req : Request) (answer : option OrderSendResult).

Inductive Res (A : Type) :=
| Ok (a : A)
| Raise (e : Exn).
Arguments Ok {A} a.
Arguments Raise {A} e.

(** A statement run in state [S]: it returns or raises, leaves a state
    (mutations made before an exception persist) and emits events. *)
Definition M (S A : Type) : Type := S -> Res A * S * list Event.

Section Monad.
Context {S : Type}.

Definition ret {A} (a : A) : M S A := fun s => (Ok a, s, []).

Definition bind {A B} (m : M S A) (k : A -> M S B) : M S B :=
  fun s =>
    match m s with
    | (Ok a, s1, ev1) =>
        match k a s1 with (r, s2, ev2) => (r, s2, ev1 ++ ev2) end
    | (Raise e, s1, ev1) => (Raise e, s1, ev1)
    end.

Definition raise {A} (e : Exn) : M S A := fun s => (Raise e, s, []).

Definition get : M S S := fun s => (Ok s, s, []).
Definition put (s : S) : M S unit := fun _ => (Ok tt, s, []).
Definition emit (ev : Event) : M S unit := fun s => (Ok tt, s, [ev]).
Definition log (msg : LogMsg) : M S unit := emit (EvLog msg).

(** [try: body except Exception as e: handler e] *)
Definition try_except {A} (body : M S A) (handler : Exn -> M S A) : M S A :=
  fun s =>
    match body s with
    | (Ok a, s1, ev1) => (Ok a, s1, ev1)
    | (Raise e, s1, ev1) =>
        match handler e s1 with (r, s2, ev2) => (r, s2, ev1 ++ ev2) end
    end.

(** [for x in xs: body x]; a [continue] is a body that returns early. *)
Fixpoint for_each {X} (xs : list X) (body : X -> M S unit) : M S unit :=
  match xs with
  | [] => ret tt
  | x :: rest => bind (body x) (fun _ => for_each rest body)
  end.

Definition result_of {A} (out : Res A * S * list Event) : Res A := out.1.1.
Definition state_of {A} (out : Res A * S * list Event) : S := out.1.2.
Definition events_of {A} (out : Res A * S * list Event) : list Event := out.2.
End Monad.

Declare Scope py_scope.
Delimit Scope py_scope with py.
Notation "x <- m ;; k" := (bind m (fun x => k))
  (at level 100, m at next level, right associativity) : py_scope.
Notation "m ;; k" := (bind m (fun _ => k))
  (at level 100, right associativity) : py_scope.
Open Scope py_scope.

(* ===================================================================== *)
(** * strategy.py *)
(* ===================================================================== *)

(** ** The part of pandas that [apply_strategy] uses

    A [DataFrame] with the default [RangeIndex] (what [fetch_data]
    builds): a number of rows and named columns. A column has a dtype:
    [float64], [int64] or [object]; the object cells that occur are
    [None] and strings. *)
Inductive Column :=
| FloatCol (xs : list float)
| IntCol (xs : list Z)
| ObjectCol (xs : list (option string)).

Record DataFrame := { nrows : nat; columns : gmap string Column }.

(** [data[key]] raises [KeyError] when there is no such column. *)
Definition getitem (key : string) : M DataFrame Column :=
  d <- get ;;
  match columns d !! key with
  | Some c => ret c
  | None => raise (KeyError key)
  end.

(** [data[key] = c] adds or replaces a column of the object itself. *)
Definition setitem (key : string) (c : Column) : M DataFrame unit :=
  d <- get ;;
  put {| nrows := nrows d; columns := <[key := c]> (columns d) |}.

(** Python's [float(s)] for a string [s]: the number the text denotes,
    or [None] where it raises [ValueError]. The conversion belongs to the
    interpreter, not to this repository; the development holds for
    whatever it is. *)
Class FloatOfStr := float_of_str : string -> option float.

(** [float(cell)] for a cell of an [object] column, as the cast of the
    column to [float64] applies it: [None] becomes NaN, a string is
    converted by [float]. *)
Definition float_of_cell `{!FloatOfStr} (cell : option string) : option float :=
  match cell with
  | None => Some F64.nan
  | Some text => float_of_str text
  end.

(** The values of a column as [float64], as pandas converts them before
    it rolls or compares: an integer is converted, the cells of an
    [object] column are converted one by one, and the conversion of the
    column fails as soon as one of its cells is text that [float]
    refuses. *)
Definition numeric `{!FloatOfStr} (c : Column) : option (list float) :=
  match c with
  | FloatCol xs => Some xs
  | IntCol xs => Some (F64.of_int <$> xs)
  | ObjectCol cells => mapM float_of_cell cells
  end.

(** An operation on the values of a column raises [err] when they are
    not numbers: [DataError] from [rolling], [TypeError] from the
    arithmetic and comparison operators. *)
Definition values `{!FloatOfStr} (err : Exn) (c : Column)
  : M DataFrame (list float) :=
  match numeric c with
  | Some xs => ret xs
  | None => raise err
  end.

(** ** [Series.rolling(window=w).mean()]

    pandas hands the values, with every infinity replaced by NaN, and
    the bounds of the windows to [roll_mean], which keeps one running
    sum for all windows: moving to the next window removes the values
    that leave it and adds the ones that enter, both with Kahan
    compensation, and counts the observations (the values that are not
    NaN), the negative ones among them and the length of the current run
    of equal values. *)
Record MeanState := {
  nobs : Z;
  neg_ct : Z;
  sum_x : float;
  compensation_add : float;
  compensation_remove : float;
  num_consecutive_same_value : Z;
  prev_value : float
}.

(** The state at the set-up of a window that starts with [first]. *)
Definition setup (first : float) : MeanState :=
  {| nobs := 0; neg_ct := 0; sum_x := F64.of_int 0;
     compensation_add := F64.of_int 0; compensation_remove := F64.of_int 0;
     num_consecutive_same_value := 0; prev_value := first |}.

(** [add_mean]: a value enters the window; a NaN is passed over. *)
Definition add_mean (st : MeanState) (val : float) : MeanState :=
  if F64.eqb val val then
    let y := F64.sub val (compensation_add st) in
    let t := F64.add (sum_x st) y in
    {| nobs := nobs st + 1;
       neg_ct := if F64.signbit val then neg_ct st + 1 else neg_ct st;
       sum_x := t;
       compensation_add := F64.sub (F64.sub t (sum_x st)) y;
       compensation_remove := compensation_remove st;
       num_consecutive_same_value :=
         if F64.eqb val (prev_value st)
         then num_consecutive_same_value st + 1 else 1;
       prev_value := val |}
  else st.

(** [remove_mean]: a value leaves the window. *)
Definition remove_mean (st : MeanState) (val : float) : MeanState :=
  if F64.eqb val val then
    let y := F64.sub (F64.opp val) (compensation_remove st) in
    let t := F64.add (sum_x st) y in
    {| nobs := nobs st - 1;
       neg_ct := if F64.signbit val then neg_ct st - 1 else neg_ct st;
       sum_x := t;
       compensation_add := compensation_add st;
       compensation_remove := F64.sub (F64.sub t (sum_x st)) y;
       num_consecutive_same_value := num_consecutive_same_value st;
       prev_value := prev_value st |}
  else st.

(** [calc_mean]: the mean of the window, NaN below [minp]
    observations; a window of one repeated value has that value as its
    mean, and a mean whose sign contradicts the signs of the values is
    replaced by zero. *)
Definition calc_mean (minp : Z) (st : MeanState) : float :=
  if (minp <=? nobs st) && (0 <? nobs st) then
    let result := F64.div (sum_x st) (F64.of_int (nobs st)) in
    if nobs st <=? num_consecutive_same_value st then prev_value st
    else if (neg_ct st =? 0) && F64.ltb result (F64.of_int 0)
    then F64.of_int 0
    else if (neg_ct st =? nobs st) && F64.gtb result (F64.of_int 0)
    then F64.of_int 0
    else result
  else F64.nan.

(** The bounds of the window of row [i], as the fixed-window indexer
    computes them: the rows [window_start w i] to [window_end i - 1]. *)
Definition window_start (w i : nat) : nat := (i + 1 - w)%nat.
Definition window_end (i : nat) : nat := S i.

(** [values[j] for j in range(a, b)] *)
Definition slice (values : list float) (a b : nat) : list float :=
  take (b - a) (drop a values).

(** The state of the running sum at row [i], from the state [st] of the
    row before. The first row, and a row whose window does not overlap
    the one before, set the state up anew; otherwise the values that
    left the window are removed and the ones that entered are added. *)
Definition move_window (w : nat) (values : list float) (i : nat)
    (st : MeanState) : MeanState :=
  let s := window_start w i in
  let e := window_end i in
  if (i =? 0)%nat || (window_end (i - 1) <=? s)%nat then
    foldl add_mean (setup (default F64.nan (values !! s))) (slice values s e)
  else
    foldl add_mean
      (foldl remove_mean st (slice values (window_start w (i - 1)) s))
      (slice values (window_end (i - 1)) e).

(** The loop of [roll_mean] over the rows [rows], entered in state
    [st]. *)
Fixpoint roll_mean_rows (w : nat) (values : list float) (rows : list nat)
    (st : MeanState) : list float :=
  match rows with
  | [] => []
  | i :: rows' =>
      let st' := move_window w values i st in
      calc_mean (Z.of_nat w) st' :: roll_mean_rows w values rows' st'
  end.

Definition roll_mean (w : nat) (values : list float) : list float :=
  roll_mean_rows w values (seq 0 (length values)) (setup F64.nan).

(** The values as [rolling] prepares them. *)
Definition inf_to_nan (xs : list float) : list float :=
  (fun x => if F64.is_inf x then F64.nan else x) <$> xs.

(** [Series.rolling(window=w).mean()]; [min_periods] defaults to the
    window. *)
Definition rolling_mean (w : nat) (xs : list float) : list float :=
  roll_mean w (inf_to_nan xs).

(** The rolling mean at row [i]. *)
Definition window_mean (w : nat) (xs : list float) (i : nat) : float :=
  default F64.nan (rolling_mean w xs !! i).

(** [(short > long).astype(int)] *)
Definition crossover_of (short long : list float) : list Z :=
  zip_with (fun s l => Z.b2z (F64.gtb s l)) short long.

(** [Series.diff()] of an integer column: a float column whose first
    row is NaN and whose row [i] is [x[i] - x[i-1]]. *)
Definition diff (xs : list Z) : list float :=
  match xs with
  | [] => []
  | _ :: later =>
      F64.nan ::
      zip_with (fun prev cur => F64.sub (F64.of_int cur) (F64.of_int prev))
               xs later
  end.

(** [abs(short - long) / long * 100] *)
Definition trend_strength_of (short long : list float) : list float :=
  zip_with
    (fun s l => F64.mul (F64.div (F64.abs (F64.sub s l)) l) (F64.of_int 100))
    short long.

(** [data.loc[mask, key] = v] on an [object] column. *)
Definition loc_assign (mask : list bool) (key : string) (v : option string)
  : M DataFrame unit :=
  c <- getitem key ;;
  match c with
  | ObjectCol xs =>
      setitem key
        (ObjectCol (zip_with (fun (m : bool) x => if m then v else x) mask xs))
  | _ => raise TypeError
  end.

(** [Series.last_valid_index()]: the last row that is not [None]. *)
Fixpoint last_valid_index_from (i : nat) (xs : list (option string))
  : option nat :=
  match xs with
  | [] => None
  | x :: rest =>
      match last_valid_index_from (S i) rest with
      | Some j => Some j
      | None => if x is Some _ then Some i else None
      end
  end.

Definition last_valid_index := last_valid_index_from 0.

(** [data.drop(keys, axis=1)] returns a new frame. *)
Definition drop_columns (keys : list string) (d : DataFrame) : DataFrame :=
  {| nrows := nrows d;
     columns := foldr (fun k cols => delete k cols) (columns d) keys |}.

(** [0.001], the nearest double to one thousandth. *)
Definition min_trend_strength : float :=
  F64.div (F64.of_int 1) (F64.of_int 1000).

(** ** [apply_strategy]

    The state of the computation is the frame object passed in, which the
    body mutates in place; line 46 rebinds the local name to the new frame
    that [drop] returns, and that frame is the value returned. *)
Definition strategy_body `{!FloatOfStr} : M DataFrame DataFrame :=
  d0 <- get ;;
  log (ApplyingStrategy (nrows d0)) ;;
  (* data['SMA_Short'] = data['close'].rolling(window=3).mean() *)
  close <- getitem "close" ;;
  xs <- values DataError close ;;
  setitem "SMA_Short" (FloatCol (rolling_mean 3 xs)) ;;
  (* data['SMA_Long'] = data['close'].rolling(window=7).mean() *)
  close <- getitem "close" ;;
  xs <- values DataError close ;;
  setitem "SMA_Long" (FloatCol (rolling_mean 7 xs)) ;;
  (* data['signal'] = None *)
  setitem "signal" (ObjectCol (replicate (nrows d0) None)) ;;
  (* data['crossover'] = (data['SMA_Short'] > data['SMA_Long']).astype(int) *)
  short <- (c <- getitem "SMA_Short" ;; values TypeError c) ;;
  long <- (c <- getitem "SMA_Long" ;; values TypeError c) ;;
  setitem "crossover" (IntCol (crossover_of short long)) ;;
  (* data['crossover_change'] = data['crossover'].diff() *)
  cross <- getitem "crossover" ;;
  match cross with
  | IntCol cs => setitem "crossover_change" (FloatCol (diff cs))
  | FloatCol _ | ObjectCol _ => raise TypeError
  end ;;
  (* data.loc[data['crossover_change'] == 1, 'signal'] = 'buy' *)
  change <- (c <- getitem "crossover_change" ;; values TypeError c) ;;
  loc_assign ((fun x => F64.eqb x (F64.of_int 1)) <$> change)
             "signal" (Some "buy") ;;
  (* data.loc[data['crossover_change'] == -1, 'signal'] = 'sell' *)
  change <- (c <- getitem "crossover_change" ;; values TypeError c) ;;
  loc_assign ((fun x => F64.eqb x (F64.of_int (-1))) <$> change)
             "signal" (Some "sell") ;;
  (* data['trend_strength'] = abs(SMA_Short - SMA_Long) / SMA_Long * 100 *)
  short <- (c <- getitem "SMA_Short" ;; values TypeError c) ;;
  long <- (c <- getitem "SMA_Long" ;; values TypeError c) ;;
  setitem "trend_strength" (FloatCol (trend_strength_of short long)) ;;
  (* data.loc[data['trend_strength'] < min_trend_strength, 'signal'] = None *)
  strength <- (c <- getitem "trend_strength" ;; values TypeError c) ;;
  loc_assign ((fun x => F64.ltb x min_trend_strength) <$> strength)
             "signal" None ;;
  (* the two debug records about the last signal *)
  sig <- getitem "signal" ;;
  match sig with
  | ObjectCol ss =>
      match last_valid_index ss with
      | Some i =>
          log (GeneratedSignal (default "" (mjoin (ss !! i))) i) ;;
          log (TrendStrength (default F64.nan (strength !! i)))
      | None => ret tt
      end
  | FloatCol _ | IntCol _ => ret tt
  end ;;
  (* data = data.drop([...], axis=1) *)
  d <- get ;;
  log StrategyApplied ;;
  ret (drop_columns ["crossover"; "crossover_change"; "trend_strength"] d).

(** On an exception the handler returns [data], which is still the
    object that was passed in, as the body left it. *)
Definition apply_strategy `{!FloatOfStr} : M DataFrame DataFrame :=
  try_except strategy_body
    (fun e => log (ErrorApplyingStrategy e) ;; get).

(** The frame [apply_strategy(data)] evaluates to. The function has no
    path on which it propagates an exception. *)
Definition apply_strategy_value `{!FloatOfStr} (data : DataFrame)
  : option DataFrame :=
  match result_of (apply_strategy data) with
  | Ok out => Some out
  | Raise _ => None
  end.

(** The signal of row [i] of a frame, as [main.py] reads it. *)
Definition signal_at (d : DataFrame) (i : nat) : option string :=
  match columns d !! "signal" with
  | Some (ObjectCol ss) => mjoin (ss !! i)
  | _ => None
  end.

(** A bar series: a frame whose [close] column holds one number per row. *)
Definition closes_of `{!FloatOfStr} (d : DataFrame) : option (list float) :=
  columns d !! "close" ≫= numeric.

Definition bar_series `{!FloatOfStr} (d : DataFrame) (closes : list float)
  : Prop :=
  closes_of d = Some closes /\ length closes = nrows d.

(** The crossover indicator of row [i]: 1 iff short MA > long MA. *)
Definition crossover_at (closes : list float) (i : nat) : Z :=
  Z.b2z (F64.gtb (window_mean 3 closes i) (window_mean 7 closes i)).

Definition trend_strength_at (closes : list float) (i : nat) : float :=
  let s := window_mean 3 closes i in
  let l := window_mean 7 closes i in
  F64.mul (F64.div (F64.abs (F64.sub s l)) l) (F64.of_int 100).

Definition frame_of_closes (xs : list Z) : DataFrame :=
  {| nrows := length xs; columns := {[ "close" := IntCol xs ]} |}.

(* ===================================================================== *)
(** * trade.py *)
(* ===================================================================== *)

(** A value of the [active_trades] dictionary. [start_time] is a
    [datetime], counted in microseconds. *)
Record TradeInfo := { start_time : Z; entry_price : float }.

(** The fields of a [TradeExecutor] object. *)
Record TradeExecutor := {
  trade_amount : float;
  active_trades : gmap Z TradeInfo;
  last_signal : option string
}.

(** [TradeExecutor(trade_amount)] *)
Definition init (amount : float) : TradeExecutor :=
  {| trade_amount := amount; active_trades := ∅; last_signal := None |}.

(** The state a method runs in: the environment and the object. *)
Record World (E : Type) := { env : E; self : TradeExecutor }.
Arguments env {E} w.
Arguments self {E} w.

(** [timedelta.total_seconds() >= 60]. A [timedelta] is an exact number of
    microseconds and [total_seconds] is its correctly rounded quotient by
    10^6; 60 is a double, so the comparison holds exactly when the span
    is at least 60 * 10^6 microseconds. *)
Definition holding_threshold : Z := 60 * 1000000.

Definition held_long_enough (time_open : Z) : bool :=
  holding_threshold <=? time_open.

(** Which branch of the exit policy of [manage_trades] fires. *)
Inductive ExitRule := InProfit | StopLoss | ProfitTarget.

Definition calculate_profit (position : Position) (current_price : float)
  : float :=
  match type position with
  | ORDER_TYPE_BUY =>
      F64.mul (F64.mul (F64.sub current_price (price_open position))
                       (volume position))
              (F64.of_int 100000)
  | ORDER_TYPE_SELL =>
      F64.mul (F64.mul (F64.sub (price_open position) current_price)
                       (volume position))
              (F64.of_int 100000)
  end.

(** Lines 56-69: the nest of conditions on [time_open] and [profit]. *)
Definition exit_rule (time_open : Z) (profit : float) : option ExitRule :=
  if held_long_enough time_open then
    if F64.gtb profit (F64.of_int 0) then Some InProfit
    else
      if F64.leb profit (F64.of_int (-5)) then Some StopLoss
      else if F64.geb profit (F64.of_int 2) then Some ProfitTarget
      else None
  else None.

Definition exit_message (rule : ExitRule) (tk : Z) (profit : float) : LogMsg :=
  match rule with
  | InProfit => ClosingProfitable tk profit
  | StopLoss => ClosingAtStopLoss tk profit
  | ProfitTarget => ClosingAtProfitTarget tk profit
  end.

Definition opposite (t : OrderType) : OrderType :=
  match t with
  | ORDER_TYPE_BUY => ORDER_TYPE_SELL
  | ORDER_TYPE_SELL => ORDER_TYPE_BUY
  end.

Definition type_name (t : OrderType) : string :=
  match t with
  | ORDER_TYPE_BUY => "buy"
  | ORDER_TYPE_SELL => "sell"
  end.

Section TradeExecutor.
Context {E : Type} `{!Terminal E}.

(** ** Calls to the environment *)

Definition mt5_positions_get (symbol : string)
  : M (World E) (option (list Position)) :=
  fun w =>
    let '(answer, e) := positions_get symbol (env w) in
    (Ok answer, {| env := e; self := self w |},
     [EvPositionsGet symbol answer]).

Definition mt5_symbol_info_tick (symbol : string)
  : M (World E) (option Tick) :=
  fun w =>
    let '(answer, e) := symbol_info_tick symbol (env w) in
    (Ok answer, {| env := e; self := self w |}, [EvTick symbol answer]).

Definition mt5_order_send (request : Request)
  : M (World E) (option OrderSendResult) :=
  fun w =>
    let '(answer, e) := order_send request (env w) in
    (Ok answer, {| env := e; self := self w |},
     [EvOrderSend request answer]).

Definition now : M (World E) Z :=
  fun w =>
    let '(t, e) := datetime_now (env w) in
    (Ok t, {| env := e; self := self w |}, []).

(** Reading an attribute of [None] raises [AttributeError]. *)
Definition attr {A B} (field : A -> B) (obj : option A) : M (World E) B :=
  match obj with
  | Some a => ret (field a)
  | None => raise AttributeError
  end.

(** ** The object's fields *)

Definition get_self : M (World E) TradeExecutor :=
  w <- get ;; ret (self w).

Definition set_active_trades (trades : gmap Z TradeInfo) : M (World E) unit :=
  w <- get ;;
  put {| env := env w;
         self := {| trade_amount := trade_amount (self w);
                    active_trades := trades;
                    last_signal := last_signal (self w) |} |}.

Definition set_last_signal (sig : option string) : M (World E) unit :=
  w <- get ;;
  put {| env := env w;
         self := {| trade_amount := trade_amount (self w);
                    active_trades := active_trades (self w);
                    last_signal := sig |} |}.

(** ** Methods *)

Definition has_open_positions (symbol : string) : M (World E) bool :=
  positions <- mt5_positions_get symbol ;;
  match positions with
  | None | Some [] => ret false
  | Some (_ :: _) => ret true
  end.

Definition get_position_type (symbol : string) : M (World E) (option string) :=
  positions <- mt5_positions_get symbol ;;
  match positions with
  | None | Some [] => ret None
  | Some (first :: _) => ret (Some (type_name (type first)))
  end.

(** Lines 84-91: whether the loop of [close_trade] skips a position. *)
Definition skipped (position_type : option string) (position_ticket : option Z)
    (position : Position) : bool :=
  match position_ticket with
  | Some tk => bool_decide (ticket position ≠ tk)
  | None => false
  end
  ||
  match position_type with
  | Some name => bool_decide (name ≠ type_name (type position))
  | None => false
  end.

Definition close_request (symbol : string) (position : Position)
    (price : float) : Request :=
  {| rq_symbol := symbol;
     rq_volume := volume position;
     rq_type := opposite (type position);
     rq_position := Some (ticket position);
     rq_price := price;
     rq_deviation := 30;
     rq_magic := Some (magic position);
     rq_comment := Some "Closing position" |}.

Definition close_position (symbol : string) (position : Position)
  : M (World E) unit :=
  let order_type := opposite (type position) in
  tick <- mt5_symbol_info_tick symbol ;;
  price <- (match order_type with
            | ORDER_TYPE_SELL => attr bid tick
            | ORDER_TYPE_BUY => attr ask tick
            end) ;;
  result <- mt5_order_send (close_request symbol position price) ;;
  code <- attr retcode result ;;
  match result with
  | Some res =>
      if bool_decide (code ≠ TRADE_RETCODE_DONE) then
        log (FailedToClose (ticket position) res)
      else
        log (Closed (ticket position) res) ;;
        me <- get_self ;;
        match active_trades me !! ticket position with
        | Some _ =>
            set_active_trades (delete (ticket position) (active_trades me))
        | None => ret tt
        end
  | None => ret tt
  end.

Definition close_trade (symbol : string) (position_type : option string)
    (position_ticket : option Z) : M (World E) unit :=
  try_except
    (positions <- mt5_positions_get symbol ;;
     match positions with
     | None | Some [] => log (NoOpenPositions symbol)
     | Some positions =>
         for_each positions (fun position =>
           if skipped position_type position_ticket position then ret tt
           else close_position symbol position)
     end)
    (fun e => log (ErrorWhileClosing e)).

Definition manage_position (symbol : string) (current_time : Z)
    (current_tick : option Tick) (position : Position) : M (World E) unit :=
  me <- get_self ;;
  match active_trades me !! ticket position with
  | None => ret tt
  | Some info =>
      let time_open := current_time - start_time info in
      current_price <- (match type position with
                        | ORDER_TYPE_BUY => attr bid current_tick
                        | ORDER_TYPE_SELL => attr ask current_tick
                        end) ;;
      let profit := calculate_profit position current_price in
      match exit_rule time_open profit with
      | Some rule =>
          log (exit_message rule (ticket position) profit) ;;
          close_trade symbol None (Some (ticket position))
      | None => ret tt
      end
  end.

Definition manage_trades (symbol : string) : M (World E) unit :=
  try_except
    (positions <- mt5_positions_get symbol ;;
     match positions with
     | None | Some [] => ret tt
     | Some positions =>
         current_time <- now ;;
         current_tick <- mt5_symbol_info_tick symbol ;;
         for_each positions (manage_position symbol current_time current_tick)
     end)
    (fun e => log (ErrorInManageTrades e)).

Definition open_request (symbol : string) (amount : float) (t : OrderType)
    (price : float) : Request :=
  {| rq_symbol := symbol;
     rq_volume := amount;
     rq_type := t;
     rq_position := None;
     rq_price := price;
     rq_deviation := 30;
     rq_magic := None;
     rq_comment := None |}.

(** Lines 168-181 of [execute_trade]: send the opening order. *)
Definition send_order (signal : string) (request : Request)
  : M (World E) (option OrderSendResult) :=
  result <- mt5_order_send request ;;
  code <- attr retcode result ;;
  match result with
  | Some res =>
      (if bool_decide (code = TRADE_RETCODE_DONE) then
         log (Opened signal res) ;;
         started <- now ;;
         me <- get_self ;;
         set_active_trades
           (<[order res := {| start_time := started;
                              entry_price := rq_price request |}]>
              (active_trades me)) ;;
         set_last_signal (Some signal)
       else
         log (TradeOperationFailed res)) ;;
      ret result
  | None => ret result
  end.

(** Lines 139-166 of [execute_trade]: close the other side and build
    the request; [None] is the early return on an invalid signal. *)
Definition prepare_order (signal symbol : string)
  : M (World E) (option Request) :=
  if bool_decide (signal = "buy") then
    close_trade symbol (Some "sell") None ;;
    me <- get_self ;;
    tick <- mt5_symbol_info_tick symbol ;;
    price <- attr ask tick ;;
    ret (Some (open_request symbol (trade_amount me) ORDER_TYPE_BUY price))
  else if bool_decide (signal = "sell") then
    close_trade symbol (Some "buy") None ;;
    me <- get_self ;;
    tick <- mt5_symbol_info_tick symbol ;;
    price <- attr bid tick ;;
    ret (Some (open_request symbol (trade_amount me) ORDER_TYPE_SELL price))
  else
    log InvalidSignal ;; ret None.

(** Lines 139-181 of [execute_trade], which it reaches once the
    position checks let the signal through. *)
Definition order_steps (signal symbol : string)
  : M (World E) (option OrderSendResult) :=
  request <- prepare_order signal symbol ;;
  match request with
  | Some request => send_order signal request
  | None => ret None
  end.

(** The value is what the method returns: [None] on its early
    returns, otherwise the result of [order_send]. The method has no
    [try]: an exception leaves it. *)
Definition execute_trade (signal symbol : string)
  : M (World E) (option OrderSendResult) :=
  me <- get_self ;;
  if bool_decide (Some signal = last_signal me) then
    log (IgnoringSameAsPrevious signal) ;; ret None
  else
    current_position_type <- get_position_type symbol ;;
    match current_position_type with
    | Some current =>
        if bool_decide (signal = current) then
          log (IgnoringAlreadyInPosition signal) ;; ret None
        else
          log (ClosingToOpen current signal) ;;
          order_steps signal symbol
    | None => order_steps signal symbol
    end.

(** ** Sequences of calls

    The methods as the control loop of [main.py] calls them: an
    exception that leaves [execute_trade] is caught by the loop, which
    goes on with its next cycle. *)
Inductive Call :=
| Execute (signal symbol : string)
| Manage (symbol : string)
| Close (symbol : string) (position_type : option string)
        (position_ticket : option Z).

Definition run_call (c : Call) : M (World E) unit :=
  match c with
  | Execute signal symbol =>
      try_except (execute_trade signal symbol ;; ret tt) (fun _ => ret tt)
  | Manage symbol => manage_trades symbol
  | Close symbol position_type position_ticket =>
      close_trade symbol position_type position_ticket
  end.

Definition run_calls (cs : list Call) : M (World E) unit :=
  for_each cs run_call.

End TradeExecutor.

(** ** Observations on the events of a call *)

(** An order was submitted that closes the position with ticket [tk]. *)
Definition closes_ticket (tk : Z) (ev : Event) : bool :=
  match ev with
  | EvOrderSend req _ => bool_decide (rq_position req = Some tk)
  | _ => false
  end.

(** The terminal confirmed a closing order for ticket [tk]. *)
Definition closed_ticket (tk : Z) (ev : Event) : bool :=
  match ev with
  | EvOrderSend req (Some res) =>
      bool_decide (rq_position req = Some tk) &&
      bool_decide (retcode res = TRADE_RETCODE_DONE)
  | _ => false
  end.

Definition is_order (ev : Event) : bool :=
  match ev with
  | EvOrderSend _ _ => true
  | _ => false
  end.

(* ===================================================================== *)
(** * A simulated broker *)
(* ===================================================================== *)

(** A terminal for one symbol, used to run the methods on concrete
    scenarios. It keeps the open positions; an accepted opening order
    adds a position whose ticket is the order number, an accepted closing
    order removes the position it names. What the broker decides on its
    own is scripted: [sb_retcodes] are the return codes of the coming
    [order_send] calls ([TRADE_RETCODE_DONE] once the script is used up),
    and [sb_closures] lists, for each coming [positions_get] call, the
    tickets that were closed on the broker's side (a stop-out, or the
    account holder closing them by hand) since the call before. *)
Record SimBroker := {
  sb_positions : list Position;
  sb_tick : option Tick;
  sb_clock : Z;
  sb_next_order : Z;
  sb_retcodes : list Z;
  sb_closures : list (list Z)
}.

Definition sb_without (tickets : list Z) (positions : list Position)
  : list Position :=
  filter (fun p => ticket p ∉ tickets) positions.

Definition sb_positions_get (symbol : string) (b : SimBroker)
  : option (list Position) * SimBroker :=
  let remaining := sb_without (default [] (head (sb_closures b))) (sb_positions b) in
  (Some remaining,
   {| sb_positions := remaining;
      sb_tick := sb_tick b;
      sb_clock := sb_clock b;
      sb_next_order := sb_next_order b;
      sb_retcodes := sb_retcodes b;
      sb_closures := tail (sb_closures b) |}).

Definition sb_order_send (req : Request) (b : SimBroker)
  : option OrderSendResult * SimBroker :=
  let code := default TRADE_RETCODE_DONE (head (sb_retcodes b)) in
  let after :=
    if bool_decide (code = TRADE_RETCODE_DONE) then
      match rq_position req with
      | Some tk => sb_without [tk] (sb_positions b)
      | None =>
          sb_positions b ++
          [{| ticket := sb_next_order b;
              type := rq_type req;
              price_open := rq_price req;
              volume := rq_volume req;
              magic := 0 |}]
      end
    else sb_positions b in
  (Some {| retcode := code; order := sb_next_order b |},
   {| sb_positions := after;
      sb_tick := sb_tick b;
      sb_clock := sb_clock b;
      sb_next_order := sb_next_order b + 1;
      sb_retcodes := tail (sb_retcodes b);
      sb_closures := sb_closures b |}).

#[global] Instance sim_terminal : Terminal SimBroker := {|
  positions_get := sb_positions_get;
  symbol_info_tick := fun _ b => (sb_tick b, b);
  order_send := sb_order_send;
  datetime_now := fun b => (sb_clock b, b)
|}.

Definition one : float := F64.of_int 1.
Definition two : float := F64.of_int 2.

Definition quote : Tick := {| bid := one; ask := one |}.

Definition TRADE_RETCODE_REJECT : Z := 10006.

Definition a_position (tk : Z) (t : OrderType) : Position :=
  {| ticket := tk; type := t; price_open := one;
     volume := F64.div one (F64.of_int 100); magic := 0 |}.

Definition a_trade (started : Z) : TradeInfo :=
  {| start_time := started; entry_price := one |}.

(** ** How a call may change the object, and what it may emit *)

(** Between [before] and [after] the amount and the last signal are kept
    and the shadow map only loses entries, each one for a ticket whose
    closing order the terminal confirmed among [evs]. *)
Definition shadow_step (before after : TradeExecutor) (evs : list Event) : Prop :=
  trade_amount after = trade_amount before /\
  last_signal after = last_signal before /\
  forall tk,
    active_trades after !! tk = active_trades before !! tk \/
    (active_trades after !! tk = None /\
     Exists (fun ev => closed_ticket tk ev = true) evs).

(** The events of the loop of [close_trade] over the positions whose
    tickets are [listed]: quotes, closing orders for listed tickets (for
    the ticket [only] when the call names one) and their log records. *)
Definition closing_event (listed : list Z) (only : option Z) (ev : Event) : bool :=
  match ev with
  | EvPositionsGet _ _ => false
  | EvTick _ _ => true
  | EvOrderSend req _ =>
      match rq_position req with
      | Some tk =>
          bool_decide (tk ∈ listed) &&
          match only with
          | Some tk' => bool_decide (tk = tk')
          | None => true
          end
      | None => false
      end
  | EvLog (FailedToClose _ _ | Closed _ _ | NoOpenPositions _
          | ErrorWhileClosing _) => true
  | EvLog _ => false
  end.

(** Every order among [evs] closes a ticket that the most recent answer
    of [positions_get] listed; [listed] are the tickets of the answer
    before [evs]. *)
Fixpoint reconfirmed (listed : list Z) (evs : list Event) : bool :=
  match evs with
  | [] => true
  | EvPositionsGet _ answer :: rest =>
      reconfirmed (ticket <$> default [] answer) rest
  | EvOrderSend req _ :: rest =>
      match rq_position req with
      | Some tk => bool_decide (tk ∈ listed)
      | None => false
      end && reconfirmed listed rest
  | _ :: rest => reconfirmed listed rest
  end.

Definition is_profit_target_record (ev : Event) : bool :=
  match ev with
  | EvLog (ClosingAtProfitTarget _ _) => true
  | _ => false
  end.

(** The tickets for which [evs] holds a closing order all had, when the
    call began, a shadow entry that was held long enough at
    [current_time]. *)
Definition closes_only_held (before : TradeExecutor) (current_time : Z)
    (evs : list Event) : Prop :=
  forall ev tk, ev ∈ evs -> closes_ticket tk ev = true ->
    exists info, active_trades before !! tk = Some info /\
      held_long_enough (current_time - start_time info) = true.

(** What one call of [manage_trades] that reads the time [current_time]
    does between [before] and [after]. *)
Definition managed (before : TradeExecutor) (current_time : Z)
    (after : TradeExecutor) (evs : list Event) : Prop :=
  shadow_step before after evs /\
  (forall l, reconfirmed l evs = true) /\
  Forall (fun ev => is_profit_target_record ev = false) evs /\
  closes_only_held before current_time evs.

(** ** Scenarios *)

Definition EURUSD : string := "EURUSD".

(** 0.01 lot. *)
Definition lot : float := F64.div one (F64.of_int 100).

(** The broker stops out position 1 before the third query of the
    positions; the executor starts fresh. *)
Definition stale_scenario : World SimBroker :=
  {| env := {| sb_positions := []; sb_tick := Some quote; sb_clock := 0;
               sb_next_order := 1; sb_retcodes := [];
               sb_closures := [[]; []; [1]] |};
     self := init lot |}.

(** The executor opens a position on [buy] and manages it for two
    cycles. *)
Definition stale_run : World SimBroker :=
  state_of (run_calls [Execute "buy" EURUSD; Manage EURUSD; Manage EURUSD]
                      stale_scenario).

(** A sell position the executor opened is open; the broker will
    confirm the next order and reject the one after it. *)
Definition reversal_rejected : World SimBroker :=
  {| env := {| sb_positions := [a_position 7 ORDER_TYPE_SELL];
               sb_tick := Some quote; sb_clock := 0; sb_next_order := 8;
               sb_retcodes := [TRADE_RETCODE_DONE; TRADE_RETCODE_REJECT];
               sb_closures := [] |};
     self := {| trade_amount := lot; active_trades := {[ 7 := a_trade 0 ]};
                last_signal := Some "sell" |} |}.

(** No position; the broker will reject the next order. *)
Definition open_rejected : World SimBroker :=
  {| env := {| sb_positions := []; sb_tick := Some quote; sb_clock := 0;
               sb_next_order := 1; sb_retcodes := [TRADE_RETCODE_REJECT];
               sb_closures := [] |};
     self := init lot |}.

(** A buy position opened at 1.0 thirty seconds ago, now quoted at 2.0:
    a profit of 1000. *)
Definition young_position : World SimBroker :=
  {| env := {| sb_positions := [a_position 1 ORDER_TYPE_BUY];
               sb_tick := Some {| bid := two; ask := two |};
               sb_clock := 30 * 1000000; sb_next_order := 2;
               sb_retcodes := []; sb_closures := [] |};
     self := {| trade_amount := lot; active_trades := {[ 1 := a_trade 0 ]};
                last_signal := Some "buy" |} |}.

(** A buy position listed first and a sell position after it. *)
Definition mixed_positions : World SimBroker :=
  {| env := {| sb_positions := [a_position 1 ORDER_TYPE_BUY;
                                a_position 2 ORDER_TYPE_SELL];
               sb_tick := Some quote; sb_clock := 0; sb_next_order := 3;
               sb_retcodes := []; sb_closures := [] |};
     self := init lot |}.

(** The time [manage_trades] reads: the clock after the positions were
    fetched. *)
Definition time_of_manage {E} `{!Terminal E} (symbol : string) (w : World E) : Z :=
  (datetime_now (positions_get symbol (env w)).2).1.

(** ** Frames used in the scenarios of the signal generator *)

(** The scenarios are run with the conversion that refuses every text.
    Their frames hold numbers only: no text is converted in them, and the
    choice of the conversion makes no difference. *)
Definition no_numerals : FloatOfStr := fun _ => None.

(** A frame that lacks the [close] column. *)
Definition frame_without_close : DataFrame :=
  {| nrows := 2; columns := {[ "open" := IntCol [1; 2] ]} |}.

(** The closes of the end-to-end scenario. *)
Definition eight_closes : list Z := [1; 1; 1; 1; 1; 1; 1; 2].

(** The [signal] column that the body of [apply_strategy] assigns for
    the close prices [xs] in a frame of [n] rows, step by step as lines
    21 to 36 do. *)
Definition signals_of (n : nat) (xs : list float) : list (option string) :=
  let short := rolling_mean 3 xs in
  let long := rolling_mean 7 xs in
  let change := diff (crossover_of short long) in
  let strength := trend_strength_of short long in
  zip_with (fun (m : bool) x => if m then None else x)
    ((fun x => F64.ltb x min_trend_strength) <$> strength)
    (zip_with (fun (m : bool) x => if m then Some "sell" else x)
       ((fun x => F64.eqb x (F64.of_int (-1))) <$> change)
       (zip_with (fun (m : bool) x => if m then Some "buy" else x)
          ((fun x => F64.eqb x (F64.of_int 1)) <$> change)
          (replicate n None))).

(* ===================================================================== *)
(** * Specifications of statements *)
(* ===================================================================== *)

(** [post m s Q]: running [m] from [s] ends in a result, a state and a
    list of events that satisfy [Q]. *)
Definition post {S A} (m : M S A) (s : S)
    (Q : Res A -> S -> list Event -> Prop) : Prop :=
  Q (result_of (m s)) (state_of (m s)) (events_of (m s)).


(* ===================================================================== *)
(** * Further definitions: the frames of [apply_strategy] *)
(* ===================================================================== *)

(** The six columns [apply_strategy] assigns. *)
Definition assigned_columns : list string :=
  ["SMA_Short"; "SMA_Long"; "signal"; "crossover"; "crossover_change";
   "trend_strength"].

(** The columns [apply_strategy] drops before it returns. *)
Definition intermediate_columns : list string :=
  ["crossover"; "crossover_change"; "trend_strength"].

(** The change of the crossover indicator at row [i], as
    [data['crossover'].diff()] has it. *)
Definition change_at (closes : list float) (i : nat) : float :=
  match i with
  | O => F64.nan
  | S j => F64.sub (F64.of_int (crossover_at closes i))
                   (F64.of_int (crossover_at closes j))
  end.

(** The frame object passed to [apply_strategy] as the body leaves it
    when the close prices are [xs]: every assignment of lines 16 to 36,
    in order. *)
Definition frame_after_body (d : DataFrame) (xs : list float) : DataFrame :=
  let short := rolling_mean 3 xs in
  let long := rolling_mean 7 xs in
  let cross := crossover_of short long in
  let change := diff cross in
  let strength := trend_strength_of short long in
  let s0 := replicate (nrows d) None in
  let s1 := zip_with (fun (m : bool) x => if m then Some "buy" else x)
              ((fun x => F64.eqb x (F64.of_int 1)) <$> change) s0 in
  let s2 := zip_with (fun (m : bool) x => if m then Some "sell" else x)
              ((fun x => F64.eqb x (F64.of_int (-1))) <$> change) s1 in
  let s3 := zip_with (fun (m : bool) x => if m then None else x)
              ((fun x => F64.ltb x min_trend_strength) <$> strength) s2 in
  {| nrows := nrows d;
     columns :=
       <["signal" := ObjectCol s3]>
       (<["trend_strength" := FloatCol strength]>
       (<["signal" := ObjectCol s2]>
       (<["signal" := ObjectCol s1]>
       (<["crossover_change" := FloatCol change]>
       (<["crossover" := IntCol cross]>
       (<["signal" := ObjectCol s0]>
       (<["SMA_Long" := FloatCol long]>
       (<["SMA_Short" := FloatCol short]> (columns d))))))))) |}.

(** The signal of a row, read off the three masked assignments. *)
Definition row_signal (closes : list float) (i : nat) : option string :=
  if F64.ltb (trend_strength_at closes i) min_trend_strength then None
  else if F64.eqb (change_at closes i) (F64.of_int (-1)) then Some "sell"
  else if F64.eqb (change_at closes i) (F64.of_int 1) then Some "buy"
  else None.


(** Bars that rise and then fall: at index 7 the short average drops
    below the long one and the indicator goes from 1 to 0. *)
Definition falling_closes : list Z := [5; 5; 5; 5; 5; 6; 6; 1].

(** The double that a decimal literal of value [n / d] denotes, for
    integers below 2^53. *)
Definition ratio (n d : Z) : float := F64.div (F64.of_int n) (F64.of_int d).

(** Seven closes of 1.1 followed by a rise to 1.1007, and by a fall to
    1.0993. *)
Definition flat_then_up : list float :=
  replicate 7 (ratio 11 10) ++ [ratio 11007 10000].

Definition flat_then_down : list float :=
  replicate 7 (ratio 11 10) ++ [ratio 10993 10000].

(** Bars that barely move: at index 7 the close rises by one part in a
    hundred thousand, the short average passes the long one and the
    indicator goes from 0 to 1, with a trend strength of about 0.0002. *)
Definition quiet_closes : list Z :=
  [100000; 100000; 100000; 100000; 100000; 100000; 100000; 100001].

(* ===================================================================== *)
(** * Further definitions: orders and the shadow map *)
(* ===================================================================== *)

(** An opening order: a request without the ["position"] key. *)
Definition is_opening_order (ev : Event) : bool :=
  match ev with
  | EvOrderSend req _ => bool_decide (rq_position req = None)
  | _ => false
  end.

(** The price [close_trade] asks for a position, from a quote: the bid
    to close a buy (the offsetting order is a sell), the ask to close a
    sell. *)
Definition closing_price (position : Position) (tick : Tick) : float :=
  match type position with
  | ORDER_TYPE_BUY => bid tick
  | ORDER_TYPE_SELL => ask tick
  end.

(** [ev], if it is an order, is the offsetting order of one of
    [positions] that passes the filters of the call, at the closing
    price of a quote received among [evs]. *)
Definition offsets_listed (symbol : string)
    (positions : list Position) (position_type : option string)
    (position_ticket : option Z) (evs : list Event) (ev : Event) : Prop :=
  match ev with
  | EvOrderSend req _ =>
      exists position tick,
        position ∈ positions /\
        skipped position_type position_ticket position = false /\
        EvTick symbol (Some tick) ∈ evs /\
        req = close_request symbol position (closing_price position tick)
  | _ => True
  end.

(** The shadow map after a call is the one before it without the
    tickets whose closing order the terminal confirmed among [evs]. *)
Definition drops_confirmed (before after : TradeExecutor) (evs : list Event)
  : Prop :=
  forall tk,
    active_trades after !! tk =
      if existsb (closed_ticket tk) evs then None
      else active_trades before !! tk.

(** The price [execute_trade] asks for an opening order, from a quote:
    the ask for a buy, the bid for a sell. *)
Definition opening_price (t : OrderType) (tick : Tick) : float :=
  match t with
  | ORDER_TYPE_BUY => ask tick
  | ORDER_TYPE_SELL => bid tick
  end.

(** A number: neither NaN nor an infinity. *)
Definition is_finite (x : float) : bool :=
  match x with
  | S754_zero _ | S754_finite _ _ _ => true
  | S754_infinity _ | S754_nan => false
  end.

(** A terminal that has no quote to give: [symbol_info_tick] answers
    [None] in every state. *)
Definition no_quotes (E : Type) `{!Terminal E} : Prop :=
  forall symbol (e : E), (symbol_info_tick symbol e).1 = None.

(** The direction [get_position_type] reports in the state [w]: that of
    the first position the terminal lists for the symbol. *)
Definition first_listed {E : Type} `{!Terminal E} (symbol : string)
    (w : World E) : option string :=
  match (positions_get symbol (env w)).1 with
  | Some (first :: _) => Some (type_name (type first))
  | _ => None
  end.

(** Whether [execute_trade] goes as far as reading a quote: the signal
    is not the one recorded as [last_signal], the first position listed
    for the symbol, if there is one, is not in its direction, and it is
    ['buy'] or ['sell']. *)
Definition reads_quote {E : Type} `{!Terminal E} (sig symbol : string)
    (w : World E) : bool :=
  negb (bool_decide (Some sig = last_signal (self w))) &&
  negb (bool_decide (first_listed symbol w = Some sig)) &&
  (bool_decide (sig = "buy") || bool_decide (sig = "sell")).

(** What a confirmed opening order leaves behind, seen from the state
    [before] the call. *)
Definition recorded (sig : string) (before : TradeExecutor)
    (r : Res (option OrderSendResult)) (after : TradeExecutor)
    (evs : list Event) : Prop :=
  match r with
  | Ok (Some res) =>
      retcode res = TRADE_RETCODE_DONE ->
      last_signal after = Some sig /\
      trade_amount after = trade_amount before /\
      exists req info,
        EvOrderSend req (Some res) ∈ evs /\
        rq_position req = None /\
        rq_volume req = trade_amount before /\
        active_trades after !! order res = Some info /\
        entry_price info = rq_price req
  | _ => True
  end.


(** The orders of one call of [execute_trade]: none of them opens a
    position, or exactly one does, it is the last order of the call, it
    follows the quote it takes its price from, and it asks for the volume
    [amount] in the direction of the signal. *)
Definition one_opening_order_last (sig symbol : string) (amount : float)
    (evs : list Event) : Prop :=
  Forall (fun ev => is_opening_order ev = false) evs \/
  exists pre ans rest ty tick,
    evs = pre ++
          EvOrderSend (open_request symbol amount ty (opening_price ty tick)) ans
          :: rest /\
    sig = type_name ty /\
    EvTick symbol (Some tick) ∈ pre /\
    Forall (fun ev => is_opening_order ev = false) pre /\
    Forall (fun ev => is_order ev = false) rest.

(** A terminal that is not connected: every call answers [None], the
    clock stands at 0. *)
Inductive Offline := offline.

#[global] Instance offline_terminal : Terminal Offline := {|
  positions_get := fun _ e => (None, e);
  symbol_info_tick := fun _ e => (None, e);
  order_send := fun _ e => (None, e);
  datetime_now := fun e => (0, e)
|}.

(* ===================================================================== *)
(** * main.py: one cycle of the control loop *)
(* ===================================================================== *)

(** What can leave the [try] block of the loop: an exception of a
    method, or the [IndexError] of reading the last row of an empty
    column. *)
Inductive LoopExn :=
| MethodRaised (e : Exn)
| IndexError.

(** The records the loop itself writes from line 45 on. *)
Inductive LoopLogMsg :=
| DataFetched (rows : nat)
| LatestSignal (latest : option string)
| ValidSignalDetected (sig : string)
| NoValidSignal
| CheckingExistingTrades
| NoSignalColumn
| Sleeping
| ErrorInMainLoop (e : LoopExn).

(** What a cycle does: the events of the functions it calls, its own
    log records, and its call of [time.sleep]. *)
Inductive LoopEvent :=
| FromCall (ev : Event)
| LoopLog (msg : LoopLogMsg)
| Sleep (seconds : Z).

(** [data['signal'].iloc[-1]]: the last cell of the column, an
    [IndexError] when the column is empty. A cell that is no string
    ([None], a number) reads as [None] here: it is in no case one of
    ['buy', 'sell']. *)
Definition iloc_last (c : Column) : LoopExn + option string :=
  match c with
  | ObjectCol cells =>
      match last cells with
      | Some cell => inr cell
      | None => inl IndexError
      end
  | FloatCol xs => if xs is [] then inl IndexError else inr None
  | IntCol xs => if xs is [] then inl IndexError else inr None
  end.

(** [latest_signal in ['buy', 'sell']] *)
Definition valid_signal (latest : option string) : option string :=
  match latest with
  | Some sig =>
      if bool_decide (sig = "buy") || bool_decide (sig = "sell")
      then Some sig else None
  | None => None
  end.

Section ControlLoop.
Context {E : Type} `{!Terminal E} `{!FloatOfStr}.

(** The configured symbol ([config.SYMBOL]). *)
Variable SYMBOL : string.

Definition from_calls (evs : list Event) : list LoopEvent := FromCall <$> evs.

(** Lines 62-64: manage the existing trades. [manage_trades] has its own
  [try]; were it to raise, the exception would leave the block. *)
Definition manage_step (w : World E) (before : list LoopEvent)
: option LoopExn * World E * list LoopEvent :=
let out := manage_trades SYMBOL w in
(match result_of out with
 | Ok _ => None
 | Raise e => Some (MethodRaised e)
 end,
 state_of out,
 before ++ [LoopLog CheckingExistingTrades] ++ from_calls (events_of out)).

(** Lines 45-66, the part of the [try] block that follows the fetch:
  [fetched] is what [fetch_data] returned. The result is the exception
  that left the block, if one did. *)
Definition iteration (fetched : option DataFrame) (w : World E)
: option LoopExn * World E * list LoopEvent :=
match fetched with
| None => (None, w, [])
| Some data =>
    let applied := apply_strategy data in
    let evs0 := LoopLog (DataFetched (nrows data))
                :: from_calls (events_of applied) in
    match result_of applied with
    | Raise e => (Some (MethodRaised e), w, evs0)
    | Ok out =>
        match columns out !! "signal" with
        | None => (None, w, evs0 ++ [LoopLog NoSignalColumn])
        | Some column =>
            match iloc_last column with
            | inl exn => (Some exn, w, evs0)
            | inr latest =>
                let evs1 := evs0 ++ [LoopLog (LatestSignal latest)] in
                match valid_signal latest with
                | Some sig =>
                    let executed := execute_trade sig SYMBOL w in
                    let evs2 := evs1 ++ [LoopLog (ValidSignalDetected sig)]
                                ++ from_calls (events_of executed) in
                    match result_of executed with
                    | Raise e =>
                        (Some (MethodRaised e), state_of executed, evs2)
                    | Ok _ => manage_step (state_of executed) evs2
                    end
                | None => manage_step w (evs1 ++ [LoopLog NoValidSignal])
                end
            end
        end
    end
end.

(** One pass of the [while] loop from the fetch on: the block, then the
  sleep of 10 seconds, or the handler with its sleep of 60 seconds. *)
Definition cycle (fetched : option DataFrame) (w : World E)
: World E * list LoopEvent :=
match iteration fetched w with
| (None, w', evs) => (w', evs ++ [LoopLog Sleeping; Sleep 10])
| (Some exn, w', evs) => (w', evs ++ [LoopLog (ErrorInMainLoop exn); Sleep 60])
end.

(** What a cycle that trades on the signal [latest] does: the state it
  leaves, the seconds it sleeps and the events of the methods it calls.
  A signal is executed and the trades are managed; an exception that
  leaves [execute_trade] skips the managing and lengthens the sleep. *)
Definition follows (latest : option string) (w : World E)
: World E * list Z * list Event :=
match latest with
| Some sig =>
    let executed := execute_trade sig SYMBOL w in
    match result_of executed with
    | Ok _ =>
        let managed := manage_trades SYMBOL (state_of executed) in
        (state_of managed, [10], events_of executed ++ events_of managed)
    | Raise _ => (state_of executed, [60], events_of executed)
    end
| None =>
    (state_of (manage_trades SYMBOL w), [10],
     events_of (manage_trades SYMBOL w))
end.

End ControlLoop.

(** The events of the methods of the executor within a cycle. *)
Definition calls_of (evs : list LoopEvent) : list Event :=
  omap (fun ev => match ev with FromCall e => Some e | _ => None end) evs.

(** The events of the terminal, in a list of events of calls. *)
Definition is_terminal_call (ev : Event) : bool :=
  match ev with
  | EvLog _ => false
  | _ => true
  end.

(** The seconds slept in a cycle. *)
Definition slept (evs : list LoopEvent) : list Z :=
  omap (fun ev => match ev with Sleep s => Some s | _ => None end) evs.

(** The events of the terminal among the events of a cycle. *)
Definition terminal_calls (evs : list LoopEvent) : list Event :=
  filter (fun ev => is_terminal_call ev = true) (calls_of evs).


(* ===================================================================== *)
(** * Reasoning about statements *)
(* ===================================================================== *)

Section PostRules.
Context {S : Type}.
Implicit Types s : S.

Lemma post_intro {A} (m : M S A) s Q r s' evs :
  m s = (r, s', evs) -> Q r s' evs -> post m s Q.
Proof. unfold post. by intros ->. Qed.

Lemma post_mono {A} (m : M S A) s (Q Q' : Res A -> S -> list Event -> Prop) :
  post m s Q -> (forall r s' evs, Q r s' evs -> Q' r s' evs) -> post m s Q'.
Proof. unfold post. auto. Qed.

Lemma post_ret {A} (a : A) s Q : Q (Ok a) s [] -> post (ret a) s Q.
Proof. done. Qed.

Lemma post_raise {A} e s (Q : Res A -> S -> list Event -> Prop) :
  Q (Raise e) s [] -> post (raise e) s Q.
Proof. done. Qed.

Lemma post_get s Q : Q (Ok s) s [] -> post get s Q.
Proof. done. Qed.

Lemma post_put s s' Q : Q (Ok tt) s' [] -> post (put s') s Q.
Proof. done. Qed.

Lemma post_log msg s Q : Q (Ok tt) s [EvLog msg] -> post (log msg) s Q.
Proof. done. Qed.

Lemma post_bind {A B} (m : M S A) (k : A -> M S B) s Q :
  post m s (fun r s1 ev1 =>
    match r with
    | Ok a => post (k a) s1 (fun r2 s2 ev2 => Q r2 s2 (ev1 ++ ev2))
    | Raise e => Q (Raise e) s1 ev1
    end) ->
  post (bind m k) s Q.
Proof.
  unfold post, bind, result_of, state_of, events_of.
  destruct (m s) as [[[a|e] s1] ev1]; simpl; [|done].
  by destruct (k a s1) as [[r2 s2] ev2].
Qed.

Lemma post_try_except {A} (body : M S A) handler s Q :
  post body s (fun r s1 ev1 =>
    match r with
    | Ok a => Q (Ok a) s1 ev1
    | Raise e => post (handler e) s1 (fun r2 s2 ev2 => Q r2 s2 (ev1 ++ ev2))
    end) ->
  post (try_except body handler) s Q.
Proof.
  unfold post, try_except, result_of, state_of, events_of.
  destruct (body s) as [[[a|e] s1] ev1]; simpl; [done|].
  by destruct (handler e s1) as [[r2 s2] ev2].
Qed.

(** A loop keeps an invariant of the state and of the events emitted
    so far, whether it runs to its end or an exception leaves it. *)
Lemma post_for_each {X} (I : S -> list Event -> Prop) (xs : list X) body s :
  I s [] ->
  (forall x s1 ev1, x ∈ xs -> I s1 ev1 ->
     post (body x) s1 (fun _ s2 ev2 => I s2 (ev1 ++ ev2))) ->
  post (for_each xs body) s (fun _ s' evs => I s' evs).
Proof.
  revert I s. induction xs as [|x xs IH]; intros I s H0 Hbody; [done|].
  simpl. apply post_bind.
  eapply post_mono; [apply (Hbody x s []); [left|done]|].
  simpl. intros [[]|e] s1 ev1 H1; [|done].
  apply (IH (fun s' evs => I s' (ev1 ++ evs))).
  - by rewrite app_nil_r.
  - intros y s2 ev2 Hy H2.
    eapply post_mono; [apply (Hbody y s2 (ev1 ++ ev2)); [by right|done]|].
    simpl. intros _ s3 ev3. by rewrite app_assoc.
Qed.
End PostRules.

(* ===================================================================== *)
(** * The signal generator *)
(* ===================================================================== *)

Ltac step :=
  lazymatch goal with
  | |- post (bind _ _) _ _ => apply post_bind
  | |- post get _ _ => apply post_get
  | |- post (put _) _ _ => apply post_put
  | |- post (log _) _ _ => apply post_log
  | |- post (ret _) _ _ => apply post_ret
  | |- post (raise _) _ _ => apply post_raise
  | |- post (getitem _) _ _ => unfold getitem
  | |- post (setitem _ _) _ _ => unfold setitem
  | |- post (loc_assign _ _ _) _ _ => unfold loc_assign
  | |- post (values _ _) _ _ => unfold values
  end; cbn [nrows columns numeric].

Lemma closes_of_column {py_float : FloatOfStr} d xs :
  closes_of d = Some xs ->
  exists c, columns d !! "close" = Some c /\
    forall err s, values err c s = (Ok xs, s, []).
Proof.
  unfold closes_of. destruct (columns d !! "close") as [c|]; [|done].
  simpl. intros Hn. exists c. split; [done|].
  intros err s. unfold values. by rewrite Hn.
Qed.

Ltac run := repeat (first [step | progress simpl_map | progress cbn beta iota]).

Lemma strategy_body_run {py_float : FloatOfStr} d xs :
  closes_of d = Some xs ->
  post strategy_body d (fun r _ _ =>
    exists out, r = Ok out /\
      columns out !! "signal" = Some (ObjectCol (signals_of (nrows d) xs))).
Proof.
  intros (c & Hl & Hv)%closes_of_column.
  unfold strategy_body.
  repeat step. rewrite Hl. repeat step.
  eapply post_intro; [apply Hv|]. cbn beta iota.
  repeat step.
  simpl_map. repeat step.
  eapply post_intro; [apply Hv|]. run.
  fold (signals_of (nrows d) xs).
  destruct (last_valid_index _); run.
  all: eexists; split; [done|]; unfold drop_columns; cbn; by simpl_map.
Qed.

(** [apply_strategy] never lets an exception out. *)
Lemma apply_strategy_returns {py_float : FloatOfStr} d :
  exists out, apply_strategy_value d = Some out.
Proof.
  unfold apply_strategy_value, apply_strategy, try_except, result_of.
  destruct (strategy_body d) as [[[out|e] s] evs]; cbn; eauto.
Qed.

Lemma apply_strategy_signal {py_float : FloatOfStr} d xs :
  closes_of d = Some xs ->
  exists out, apply_strategy_value d = Some out /\
    columns out !! "signal" = Some (ObjectCol (signals_of (nrows d) xs)).
Proof.
  intros H. pose proof (strategy_body_run d xs H) as Hrun.
  unfold post, result_of in Hrun. destruct Hrun as (out & Hr & Hs).
  exists out. split; [|done].
  unfold apply_strategy_value, apply_strategy, try_except, result_of.
  destruct (strategy_body d) as [[r s] evs]; simpl in *. by subst.
Qed.

(** When the body raises, nothing has been assigned yet. *)
Lemma strategy_body_raises {py_float : FloatOfStr} d e :
  result_of (strategy_body d) = Raise e ->
  state_of (strategy_body d) = d /\
  events_of (strategy_body d) = [EvLog (ApplyingStrategy (nrows d))].
Proof.
  intros Hr.
  destruct (closes_of d) as [xs|] eqn:Hc.
  { pose proof (strategy_body_run d xs Hc) as (out & Ho & _).
    rewrite Hr in Ho. done. }
  clear Hr. unfold closes_of in Hc.
  unfold strategy_body, bind, getitem, get, log, emit, ret, raise, values,
    state_of, events_of, bind.
  destruct (columns d !! "close") as [c|]; [|done].
  simpl in Hc. by rewrite Hc.
Qed.

(** ** Row by row *)

Lemma length_roll_mean_rows w vs rows st :
  length (roll_mean_rows w vs rows st) = length rows.
Proof.
  revert st. induction rows as [|i rows IH]; intros st; [done|].
  simpl. by rewrite IH.
Qed.

Lemma length_rolling_mean w xs : length (rolling_mean w xs) = length xs.
Proof.
  unfold rolling_mean, roll_mean, inf_to_nan.
  by rewrite length_roll_mean_rows, length_seq, length_fmap.
Qed.

Lemma rolling_mean_row w xs i :
  (i < length xs)%nat -> rolling_mean w xs !! i = Some (window_mean w xs i).
Proof.
  intros Hi. unfold window_mean.
  destruct (rolling_mean w xs !! i) as [y|] eqn:Hy; [done|].
  apply lookup_ge_None in Hy. rewrite length_rolling_mean in Hy. lia.
Qed.

Lemma rolling_mean_lookup w xs i y :
  rolling_mean w xs !! i = Some y ->
  y = window_mean w xs i /\ (i < length xs)%nat.
Proof.
  intros Hy. unfold window_mean. rewrite Hy. split; [done|].
  apply lookup_lt_Some in Hy. by rewrite length_rolling_mean in Hy.
Qed.

(** A value that enters the window is at most one more observation. *)
Lemma nobs_add_mean st val : nobs (add_mean st val) <= nobs st + 1.
Proof. unfold add_mean. destruct (F64.eqb val val); simpl; lia. Qed.

Lemma nobs_foldl_add_mean vals st :
  nobs (foldl add_mean st vals) <= nobs st + Z.of_nat (length vals).
Proof.
  revert st. induction vals as [|val vals IH]; intros st; simpl; [lia|].
  pose proof (IH (add_mean st val)). pose proof (nobs_add_mean st val). lia.
Qed.

Lemma length_slice vals a b : (length (slice vals a b) <= b - a)%nat.
Proof. unfold slice. rewrite length_take. lia. Qed.

(** Until the window is full no value leaves it, the observations are
    fewer than [min_periods], and the mean is NaN. *)
Lemma roll_mean_rows_warmup w vals n a st k y :
  nobs st <= Z.of_nat a ->
  (a + k + 1 < w)%nat ->
  roll_mean_rows w vals (seq a n) st !! k = Some y ->
  y = F64.nan.
Proof.
  revert a st k. induction n as [|n IH]; intros a st k Hst Hk; [done|].
  cbn [seq roll_mean_rows].
  set (st' := move_window w vals a st).
  assert (Hst' : nobs st' <= Z.of_nat (S a)).
  { unfold st', move_window, window_start, window_end.
    replace (a + 1 - w)%nat with 0%nat by lia.
    destruct (_ || _).
    - pose proof (nobs_foldl_add_mean (slice vals 0 (S a))
                    (setup (default F64.nan (vals !! 0%nat)))) as Hadd.
      pose proof (length_slice vals 0 (S a)). cbn [nobs setup] in Hadd. lia.
    - replace (a - 1 + 1 - w)%nat with 0%nat by lia.
      change (slice vals 0 0) with (@nil float). cbn [foldl].
      pose proof (nobs_foldl_add_mean (slice vals (S (a - 1)) (S a)) st).
      pose proof (length_slice vals (S (a - 1)) (S a)). lia. }
  destruct k as [|k].
  - intros [= <-]. unfold calc_mean.
    replace (Z.of_nat w <=? nobs st') with false; [done|].
    symmetry. apply Z.leb_gt. lia.
  - apply IH; [done|lia].
Qed.

Lemma window_mean_warmup w xs i :
  (i + 1 < w)%nat -> window_mean w xs i = F64.nan.
Proof.
  intros Hi. unfold window_mean.
  destruct (rolling_mean w xs !! i) as [y|] eqn:Hy; [|done].
  simpl.
  apply (roll_mean_rows_warmup w (inf_to_nan xs) (length (inf_to_nan xs))
           0%nat (setup F64.nan) i y); [simpl; lia|lia|exact Hy].
Qed.

Lemma crossover_of_lookup xs i c :
  crossover_of (rolling_mean 3 xs) (rolling_mean 7 xs) !! i = Some c ->
  c = crossover_at xs i /\ (i < length xs)%nat.
Proof.
  unfold crossover_of. intros (s & l & -> & Hs & Hl)%lookup_zip_with_Some.
  apply rolling_mean_lookup in Hs as [-> ?].
  by apply rolling_mean_lookup in Hl as [-> ?].
Qed.

Lemma diff_lookup cs i x :
  diff cs !! i = Some x ->
  (i = 0%nat /\ x = F64.nan) \/
  exists j prev cur, i = S j /\ cs !! j = Some prev /\ cs !! S j = Some cur /\
    x = F64.sub (F64.of_int cur) (F64.of_int prev).
Proof.
  destruct cs as [|c0 later]; [done|]. destruct i as [|j].
  - intros [= <-]. by left.
  - intros H.
    change (zip_with (fun prev cur => F64.sub (F64.of_int cur) (F64.of_int prev))
              (c0 :: later) later !! j = Some x) in H.
    apply lookup_zip_with_Some in H as (prev & cur & -> & Hp & Hc).
    right. by exists j, prev, cur.
Qed.

(** The change of the crossover indicator is -1, 0 or 1, and the two
    masks pick out 1 and -1. *)
Lemma change_is_one (a b : bool) :
  F64.eqb (F64.sub (F64.of_int (Z.b2z a)) (F64.of_int (Z.b2z b))) (F64.of_int 1)
  = a && negb b.
Proof. by destruct a, b. Qed.

Lemma change_is_minus_one (a b : bool) :
  F64.eqb (F64.sub (F64.of_int (Z.b2z a)) (F64.of_int (Z.b2z b)))
          (F64.of_int (-1))
  = negb a && b.
Proof. by destruct a, b. Qed.

Lemma signals_of_fires n xs i s :
  signals_of n xs !! i = Some (Some s) ->
  (i < length xs)%nat /\
  exists j, i = S j /\
    ((s = "buy" /\ crossover_at xs j = 0 /\ crossover_at xs i = 1) \/
     (s = "sell" /\ crossover_at xs j = 1 /\ crossover_at xs i = 0)).
Proof.
  unfold signals_of.
  intros (m3 & v2 & Hv & _ & H2)%lookup_zip_with_Some.
  apply lookup_zip_with_Some in H2 as (m2 & v1 & -> & Hm2 & H1).
  apply lookup_zip_with_Some in H1 as (m1 & v0 & -> & Hm1 & H0).
  apply lookup_replicate in H0 as [-> _].
  rewrite list_lookup_fmap in Hm1, Hm2.
  destruct (diff _ !! i) as [x|] eqn:Hx; [|done].
  simpl in Hm1, Hm2. injection Hm1 as <-. injection Hm2 as <-.
  apply diff_lookup in Hx as [[-> ->]|(j & prev & cur & -> & Hp & Hc & ->)].
  { by destruct m3. }
  apply crossover_of_lookup in Hp as [-> _].
  apply crossover_of_lookup in Hc as [-> Hlt].
  split; [done|]. exists j. split; [done|].
  unfold crossover_at in *.
  rewrite change_is_one, change_is_minus_one in Hv.
  destruct m3; [done|].
  destruct (F64.gtb (window_mean 3 xs (S j)) _), (F64.gtb (window_mean 3 xs j) _);
    simpl in Hv; try done; injection Hv as <-; auto.
Qed.

Lemma signal_at_signals out ss i :
  columns out !! "signal" = Some (ObjectCol ss) ->
  signal_at out i = mjoin (ss !! i).
Proof. unfold signal_at. by intros ->. Qed.

Lemma crossover_at_short xs i :
  (i < 6)%nat -> crossover_at xs i = 0.
Proof.
  intros Hi. unfold crossover_at.
  rewrite (window_mean_warmup 7) by lia.
  unfold F64.gtb, F64.ltb, F64.nan, SFltb. simpl. done.
Qed.

(** ** Properties of the signal generator *)

(** C5. Error path of [apply_strategy]: whenever the computation of the
    signals raises (a missing [close] column, close prices that are not
    numbers), [apply_strategy] does not propagate the exception; it
    returns the frame it was given, and that frame is as it was at the
    call: no column added, no value changed. *)
Theorem apply_strategy_error_returns_input {py_float : FloatOfStr} d e :
  result_of (strategy_body d) = Raise e ->
  result_of (apply_strategy d) = Ok d /\
  state_of (apply_strategy d) = d /\
  apply_strategy_value d = Some d.
Proof.
  intros Hr. destruct (strategy_body_raises d e Hr) as [Hs _].
  unfold apply_strategy_value, apply_strategy, try_except, result_of, state_of in *.
  destruct (strategy_body d) as [[r s] evs]; simpl in *. by subst.
Qed.

(** C6. End-to-end scenario: on the 8 bars with closes
    [1,1,1,1,1,1,1,2] the signal is [buy] at index 7 and none at every
    other index; the trend strength computed at index 7 is above the
    minimum of 0.001. *)
Theorem eight_bar_scenario {py_float : FloatOfStr} :
  exists out,
    apply_strategy_value (frame_of_closes eight_closes) = Some out /\
    (forall i, signal_at out i = if decide (i = 7%nat) then Some "buy" else None) /\
    F64.gtb (trend_strength_at (F64.of_int <$> eight_closes) 7)
            min_trend_strength = true.
Proof.
  destruct (apply_strategy_signal (frame_of_closes eight_closes)
              (F64.of_int <$> eight_closes)) as (out & Hout & Hsig);
    [reflexivity|].
  exists out. split; [done|]. split; [|by vm_compute].
  intros i. rewrite (signal_at_signals _ _ _ Hsig).
  replace (signals_of _ _)
    with ([None; None; None; None; None; None; None; Some "buy"]
            : list (option string)) by (by vm_compute).
  do 8 (destruct i as [|i]; [reflexivity|]). reflexivity.
Qed.

(** C7. Short-series guard: a bar series with fewer than 7 bars gets no
    signal at any index. *)
Theorem short_series_no_signal {py_float : FloatOfStr} d closes :
  bar_series d closes -> (nrows d < 7)%nat ->
  exists out, apply_strategy_value d = Some out /\
    forall i, signal_at out i = None.
Proof.
  intros [Hc Hlen] Hshort.
  destruct (apply_strategy_signal d closes Hc) as (out & Hout & Hsig).
  exists out. split; [done|]. intros i.
  rewrite (signal_at_signals _ _ _ Hsig).
  destruct (signals_of (nrows d) closes !! i) as [[s|]|] eqn:Hi; [|done..].
  apply signals_of_fires in Hi as (Hlt & j & -> & Hcross).
  rewrite !crossover_at_short in Hcross by lia.
  by destruct Hcross as [(_ & _ & ?)|(_ & ? & _)].
Qed.

(** C8. Crossover firing rule: in the output for a bar series, a [buy]
    stands only at an index where the crossover indicator goes from 0 at
    the index before to 1, a [sell] only where it goes from 1 to 0, no
    other signal value occurs, and the first index never carries a
    signal. *)
Theorem signal_only_on_crossover_change {py_float : FloatOfStr} d closes :
  bar_series d closes ->
  exists out, apply_strategy_value d = Some out /\
    signal_at out 0 = None /\
    forall i s, signal_at out i = Some s ->
      exists j, i = S j /\
        ((s = "buy" /\ crossover_at closes j = 0 /\ crossover_at closes i = 1) \/
         (s = "sell" /\ crossover_at closes j = 1 /\ crossover_at closes i = 0)).
Proof.
  intros [Hc Hlen].
  destruct (apply_strategy_signal d closes Hc) as (out & Hout & Hsig).
  exists out. split; [done|].
  assert (Hfire : forall i s, signal_at out i = Some s ->
    exists j, i = S j /\
      ((s = "buy" /\ crossover_at closes j = 0 /\ crossover_at closes i = 1) \/
       (s = "sell" /\ crossover_at closes j = 1 /\ crossover_at closes i = 0))).
  { intros i s. rewrite (signal_at_signals _ _ _ Hsig).
    destruct (signals_of (nrows d) closes !! i) as [[s'|]|] eqn:Hi; [|done..].
    intros [= ->]. by apply signals_of_fires in Hi as (_ & Hi). }
  split; [|done].
  destruct (signal_at out 0) as [s|] eqn:H0; [|done].
  by apply Hfire in H0 as (j & ? & _).
Qed.

(** ** The properties of the signal generator in the scenarios *)

Section SignalScenarios.
#[local] Existing Instance no_numerals.

Lemma apply_strategy_error_returns_input_witness :
  result_of (strategy_body frame_without_close) = Raise (KeyError "close") /\
  apply_strategy_value frame_without_close = Some frame_without_close.
Proof.
  split; [reflexivity|].
  apply (apply_strategy_error_returns_input frame_without_close (KeyError "close")).
  reflexivity.
Defined.

Lemma short_series_no_signal_witness :
  exists out, apply_strategy_value (frame_of_closes [1; 2; 3; 4; 5; 6]) = Some out /\
    forall i, signal_at out i = None.
Proof.
  apply (short_series_no_signal (frame_of_closes [1; 2; 3; 4; 5; 6])
           (F64.of_int <$> [1; 2; 3; 4; 5; 6])).
  - split; reflexivity.
  - simpl. lia.
Defined.

Lemma signal_only_on_crossover_change_witness :
  exists out, apply_strategy_value (frame_of_closes eight_closes) = Some out /\
    signal_at out 0 = None /\
    forall i s, signal_at out i = Some s ->
      exists j, i = S j /\
        ((s = "buy" /\ crossover_at (F64.of_int <$> eight_closes) j = 0 /\
          crossover_at (F64.of_int <$> eight_closes) i = 1) \/
         (s = "sell" /\ crossover_at (F64.of_int <$> eight_closes) j = 1 /\
          crossover_at (F64.of_int <$> eight_closes) i = 0)).
Proof.
  apply (signal_only_on_crossover_change (frame_of_closes eight_closes)).
  split; reflexivity.
Defined.
End SignalScenarios.

(* ===================================================================== *)
(** * The trade executor *)
(* ===================================================================== *)

Section ShadowStep.
Implicit Types a b c : TradeExecutor.

Lemma shadow_step_trans a b c ev1 ev2 :
  shadow_step a b ev1 -> shadow_step b c ev2 -> shadow_step a c (ev1 ++ ev2).
Proof.
  intros (Ha1 & Hl1 & H1) (Ha2 & Hl2 & H2).
  split; [congruence|]. split; [congruence|]. intros tk.
  destruct (H2 tk) as [Heq|[Hn Hex]].
  - rewrite Heq. destruct (H1 tk) as [?|[? Hex]]; [by left|right].
    split; [done|]. apply Exists_app. by left.
  - right. split; [done|]. apply Exists_app. by right.
Qed.

Lemma shadow_step_mono a b evs evs' :
  shadow_step a b evs -> (forall ev, ev ∈ evs -> ev ∈ evs') ->
  shadow_step a b evs'.
Proof.
  intros (? & ? & H) Hsub. repeat split; try done. intros tk.
  destruct (H tk) as [?|[? Hex]]; [by left|right]. split; [done|].
  apply Exists_exists in Hex as (ev & Hin & Hev). apply Exists_exists.
  exists ev. split; [by apply Hsub|done].
Qed.

Lemma shadow_step_no_close a b evs :
  shadow_step a b evs ->
  Forall (fun ev => forall tk, closed_ticket tk ev = false) evs ->
  b = a.
Proof.
  intros (Ha & Hl & H) Hno.
  assert (active_trades b = active_trades a) as Hm.
  { apply map_eq. intros tk. destruct (H tk) as [?|[_ Hex]]; [done|].
    apply Exists_exists in Hex as (ev & Hin & Hev).
    rewrite Forall_forall in Hno. by rewrite (Hno ev Hin tk) in Hev. }
  destruct a, b; simpl in *. by subst.
Qed.
End ShadowStep.

Section Reconfirmed.
Lemma closing_events_reconfirmed listed only evs :
  Forall (fun ev => closing_event listed only ev = true) evs ->
  reconfirmed listed evs = true.
Proof.
  induction 1 as [|ev evs Hev _ IH]; [done|].
  destruct ev as [m| | |req ans]; simpl in *; try done.
  destruct (rq_position req); [|done].
  apply andb_true_iff in Hev as [-> _]. done.
Qed.

Lemma reconfirmed_app listed evs1 evs2 :
  reconfirmed listed evs1 = true ->
  (forall l, reconfirmed l evs2 = true) ->
  reconfirmed listed (evs1 ++ evs2) = true.
Proof.
  intros H1 H2. revert listed H1.
  induction evs1 as [|ev evs1 IH]; intros listed H1; [apply H2|].
  destruct ev as [m|sym ans|sym ans|req a]; simpl in *; auto.
  apply andb_true_iff in H1 as [-> H1]. by apply IH.
Qed.

End Reconfirmed.

Section Executor.
Context {E : Type} `{!Terminal E}.
Implicit Types w : World E.

Lemma post_positions_get sym w Q :
  (forall ans e, positions_get sym (env w) = (ans, e) ->
     Q (Ok ans) {| env := e; self := self w |} [EvPositionsGet sym ans]) ->
  post (mt5_positions_get sym) w Q.
Proof.
  intros HQ. unfold post, mt5_positions_get.
  destruct (positions_get sym (env w)) as [ans e] eqn:Heq. by apply HQ.
Qed.

Lemma post_symbol_info_tick sym w Q :
  (forall ans e, Q (Ok ans) {| env := e; self := self w |} [EvTick sym ans]) ->
  post (mt5_symbol_info_tick sym) w Q.
Proof.
  intros HQ. unfold post, mt5_symbol_info_tick.
  destruct (symbol_info_tick sym (env w)) as [ans e]. apply HQ.
Qed.

Lemma post_order_send req w Q :
  (forall ans e, Q (Ok ans) {| env := e; self := self w |} [EvOrderSend req ans]) ->
  post (mt5_order_send req) w Q.
Proof.
  intros HQ. unfold post, mt5_order_send.
  destruct (order_send req (env w)) as [ans e]. apply HQ.
Qed.

Lemma post_now w Q :
  (forall t e, datetime_now (env w) = (t, e) ->
     Q (Ok t) {| env := e; self := self w |} []) ->
  post now w Q.
Proof.
  intros HQ. unfold post, now.
  destruct (datetime_now (env w)) as [t e] eqn:Heq. by apply HQ.
Qed.

Lemma post_attr {A B} (field : A -> B) obj w Q :
  (forall a, obj = Some a -> Q (Ok (field a)) w []) ->
  (obj = None -> Q (Raise AttributeError) w []) ->
  post (attr field obj) w Q.
Proof. destruct obj; intros H1 H2; [by apply H1|by apply H2]. Qed.

Ltac wstep :=
  lazymatch goal with
  | |- post (bind _ _) _ _ => apply post_bind
  | |- post get _ _ => apply post_get
  | |- post (put _) _ _ => apply post_put
  | |- post (log _) _ _ => apply post_log
  | |- post (ret _) _ _ => apply post_ret
  | |- post (raise _) _ _ => apply post_raise
  | |- post get_self _ _ => unfold get_self
  | |- post (set_active_trades _) _ _ => unfold set_active_trades
  | |- post (set_last_signal _) _ _ => unfold set_last_signal
  | |- post (mt5_symbol_info_tick _) _ _ =>
      apply post_symbol_info_tick; intros ? ?
  | |- post (mt5_order_send _) _ _ => apply post_order_send; intros ? ?
  | |- post (attr _ _) _ _ => apply post_attr; [intros ? ->|intros ->]
  | |- post (try_except _ _) _ _ => apply post_try_except
  end; cbn [env self trade_amount active_trades last_signal].

Ltac wrun := repeat (first [wstep | progress cbn beta iota]).

Lemma closed_ticket_close_request tk sym p price res :
  closed_ticket tk (EvOrderSend (close_request sym p price) (Some res)) =
  bool_decide (ticket p = tk) && bool_decide (retcode res = TRADE_RETCODE_DONE).
Proof.
  simpl. f_equal. apply bool_decide_ext. split; congruence.
Qed.

Lemma shadow_step_same (a : TradeExecutor) evs : shadow_step a a evs.
Proof. repeat split. by left. Qed.

Lemma shadow_step_delete (a : TradeExecutor) tk evs :
  Exists (fun ev => closed_ticket tk ev = true) evs ->
  shadow_step a
    {| trade_amount := trade_amount a;
       active_trades := delete tk (active_trades a);
       last_signal := last_signal a |} evs.
Proof.
  intros Hex. repeat split. intros tk'. cbn.
  destruct (decide (tk = tk')) as [<-|Hne].
  - right. by rewrite lookup_delete_eq.
  - left. by rewrite lookup_delete_ne.
Qed.

(** What closing one listed position does. *)
Lemma close_position_post sym p w listed only :
  ticket p ∈ listed ->
  (forall tk, only = Some tk -> ticket p = tk) ->
  post (close_position sym p) w (fun _ w' evs =>
    shadow_step (self w) (self w') evs /\
    Forall (fun ev => closing_event listed only ev = true) evs).
Proof.
  intros Hin Honly.
  assert (Hreq : forall price ans,
    closing_event listed only (EvOrderSend (close_request sym p price) ans) = true).
  { intros. simpl. rewrite bool_decide_true by done.
    destruct only as [tk|]; [|done]. by rewrite bool_decide_true by auto. }
  unfold close_position.
  destruct (type p); cbn [opposite]; wrun.
  all: try (split; [apply shadow_step_same|by repeat constructor]).
  all: case_bool_decide as Hcode; wrun.
  all: try (split; [apply shadow_step_same|by repeat constructor]).
  all: destruct (active_trades (self w) !! ticket p); wrun.
  all: try (split; [apply shadow_step_same|by repeat constructor]).
  all: split; [|by repeat constructor].
  all: apply shadow_step_delete; simpl.
  all: apply Exists_cons_tl, Exists_cons_hd.
  all: rewrite closed_ticket_close_request, !bool_decide_true; [done..|].
  all: by destruct (decide (retcode a0 = TRADE_RETCODE_DONE)).
Qed.

(** [close_trade] never raises; it asks for the positions once and
    then only closes listed positions that pass its filters. *)
Lemma close_trade_post sym ptype only w :
  post (close_trade sym ptype only) w (fun r w' evs =>
    r = Ok tt /\
    shadow_step (self w) (self w') evs /\
    exists rest,
      evs = EvPositionsGet sym (positions_get sym (env w)).1 :: rest /\
      Forall (fun ev =>
                closing_event
                  (ticket <$> default [] (positions_get sym (env w)).1)
                  only ev = true)
             rest).
Proof.
  unfold close_trade. wrun.
  apply post_positions_get. intros ans e Hans. rewrite Hans. cbn [fst].
  destruct ans as [[|p0 ps]|].
  1, 3: wrun; split; [done|]; split; [apply shadow_step_same|];
        eexists; split; [reflexivity|]; by repeat constructor.
  eapply post_mono.
  { apply (post_for_each (fun w' evs =>
      shadow_step (self w) (self w') evs /\
      Forall (fun ev => closing_event (ticket <$> p0 :: ps) only ev = true) evs)).
    - split; [apply shadow_step_same|done].
    - intros p w1 ev1 Hp [Hs1 Hf1].
      destruct (skipped ptype only p) eqn:Hskip.
      + wrun. by rewrite app_nil_r.
      + eapply post_mono.
        * apply (close_position_post sym p w1 (ticket <$> p0 :: ps) only).
          -- by apply list_elem_of_fmap_2.
          -- intros tk ->. unfold skipped in Hskip.
             apply orb_false_iff in Hskip as [Hskip _].
             apply bool_decide_eq_false in Hskip.
             by destruct (decide (ticket p = tk)).
        * simpl. intros _ w2 ev2 [Hs2 Hf2]. split.
          -- by eapply shadow_step_trans.
          -- by apply Forall_app. }
  simpl. intros r w' evs [Hs Hf].
  destruct r as [[]|e']; wrun.
  all: split; [done|]; split;
    [eapply shadow_step_mono; [done|]; intros ev Hev; set_solver|].
  all: eexists; split; [reflexivity|]; try done.
  apply Forall_app. split; [done|]. by repeat constructor.
Qed.

(** ** The exit policy *)

Lemma not_positive_not_above_two (profit : float) :
  F64.gtb profit (F64.of_int 0) = false ->
  F64.geb profit (F64.of_int 2) = false.
Proof. by destruct profit as [[]|[]| |[] m e]. Qed.

Lemma exit_rule_never_profit_target time_open profit :
  exit_rule time_open profit <> Some ProfitTarget.
Proof.
  unfold exit_rule. destruct (held_long_enough time_open); [|done].
  destruct (F64.gtb profit (F64.of_int 0)) eqn:Hpos; [done|].
  destruct (F64.leb profit (F64.of_int (-5))); [done|].
  by rewrite (not_positive_not_above_two profit Hpos).
Qed.

Lemma exit_rule_held time_open profit rule :
  exit_rule time_open profit = Some rule ->
  held_long_enough time_open = true.
Proof. unfold exit_rule. by destruct (held_long_enough time_open). Qed.

Lemma closing_event_not_profit_target listed only ev :
  closing_event listed only ev = true -> is_profit_target_record ev = false.
Proof. by destruct ev as [[]| | |]. Qed.

Lemma closing_event_closes listed tk tk' ev :
  closing_event listed (Some tk) ev = true ->
  closes_ticket tk' ev = true -> tk' = tk.
Proof.
  destruct ev as [| | |req ans]; try done. simpl.
  destruct (rq_position req) as [t|]; [|done].
  intros [_ ->%bool_decide_eq_true]%andb_true_iff.
  by intros [= ->]%bool_decide_eq_true.
Qed.

Lemma manage_position_post sym current_time tick p w :
  post (manage_position sym current_time tick p) w (fun _ w' evs =>
    shadow_step (self w) (self w') evs /\
    (forall l, reconfirmed l evs = true) /\
    Forall (fun ev => is_profit_target_record ev = false) evs /\
    closes_only_held (self w) current_time evs).
Proof.
  assert (Hnil : forall a : TradeExecutor,
    shadow_step a a [] /\ (forall l, reconfirmed l [] = true) /\
    Forall (fun ev => is_profit_target_record ev = false) [] /\
    closes_only_held a current_time []).
  { intros a. split; [apply shadow_step_same|]. repeat split; try done.
    intros ev tk Hin. by apply elem_of_nil in Hin. }
  unfold manage_position. wrun.
  destruct (active_trades (self w) !! ticket p) as [info|] eqn:Hinfo;
    [|wrun; apply Hnil].
  wstep.
  eapply (post_mono _ _ (fun r w1 ev1 => w1 = w /\ ev1 = [])).
  { destruct (type p); wrun; done. }
  intros [price|e] w1 ev1 [-> ->]; [|apply Hnil]. cbn beta iota.
  destruct (exit_rule _ _) as [rule|] eqn:Hrule; [|wrun; apply Hnil].
  wrun. eapply post_mono; [apply close_trade_post|].
  simpl. intros r w' evs (_ & Hs & rest & -> & Hrest).
  split; [|split; [|split]].
  - eapply shadow_step_mono; [done|]. intros ev Hev. by apply elem_of_cons; right.
  - intros l. simpl. destruct rule; simpl;
      by eapply closing_events_reconfirmed.
  - constructor.
    { destruct rule; try done.
      by destruct (exit_rule_never_profit_target _ _ Hrule). }
    constructor; [done|].
    eapply Forall_impl; [done|]. apply closing_event_not_profit_target.
  - intros ev tk Hin Hcl.
    assert (tk = ticket p) as ->.
    { apply elem_of_cons in Hin as [->|Hin]; [by destruct rule|].
      apply elem_of_cons in Hin as [->|Hin]; [done|].
      rewrite Forall_forall in Hrest.
      by eapply closing_event_closes; [apply Hrest|]. }
    exists info. split; [done|]. by eapply exit_rule_held.
Qed.

Lemma shadow_step_lookup (a b : TradeExecutor) evs tk info :
  shadow_step a b evs ->
  active_trades b !! tk = Some info -> active_trades a !! tk = Some info.
Proof. intros (_ & _ & H) Hb. destruct (H tk) as [<-|[? _]]; congruence. Qed.

Lemma managed_nil a t : managed a t a [].
Proof.
  split; [apply shadow_step_same|]. repeat split; try done.
  intros ev tk Hin. by apply elem_of_nil in Hin.
Qed.

Lemma managed_app a b c t ev1 ev2 :
  managed a t b ev1 -> managed b t c ev2 -> managed a t c (ev1 ++ ev2).
Proof.
  intros (Hs1 & Hr1 & Hp1 & Hc1) (Hs2 & Hr2 & Hp2 & Hc2).
  split; [by eapply shadow_step_trans|].
  split; [intros l; by apply reconfirmed_app|].
  split; [by apply Forall_app|].
  intros ev tk [Hin|Hin]%elem_of_app Hcl; [by eapply Hc1|].
  destruct (Hc2 ev tk Hin Hcl) as (info & Hinfo & Hheld).
  exists info. split; [|done]. by eapply shadow_step_lookup.
Qed.

(** Events that are no orders and no profit-target records leave
    everything as it is. *)
Lemma managed_quiet a t evs :
  Forall (fun ev => match ev with
                    | EvOrderSend _ _ => False
                    | EvLog (ClosingAtProfitTarget _ _) => False
                    | _ => True
                    end) evs ->
  managed a t a evs.
Proof.
  intros Hq. split; [apply shadow_step_same|]. split; [|split].
  - induction Hq as [|ev evs Hev _ IH]; [done|]. intros l.
    destruct ev; simpl; try done; apply IH.
  - eapply Forall_impl; [done|]. by intros [[]| | |].
  - intros ev tk Hin Hcl. rewrite Forall_forall in Hq.
    specialize (Hq ev Hin). by destruct ev.
Qed.

Lemma manage_trades_post sym w :
  post (manage_trades sym) w (fun r w' evs =>
    r = Ok tt /\ managed (self w) (time_of_manage sym w) (self w') evs).
Proof.
  unfold manage_trades, time_of_manage. wrun.
  apply post_positions_get. intros ans e Hans. rewrite Hans. cbn [snd].
  destruct ans as [[|p0 ps]|].
  1, 3: wrun; split; [done|]; apply managed_quiet; by repeat constructor.
  wrun. apply post_now. intros t e1 Ht. cbn [env] in Ht. rewrite Ht. cbn [fst]. wrun.
  eapply post_mono.
  { apply (post_for_each (fun w' evs => managed (self w) t (self w') evs)).
    - apply managed_nil.
    - intros p w1 ev1 _ H1.
      eapply post_mono; [apply manage_position_post|].
      simpl. intros _ w2 ev2 H2. by eapply managed_app. }
  simpl. intros r w' evs Hm.
  destruct r as [[]|e']; wrun; (split; [done|]).
  - apply (managed_app _ (self w) _ _ [_] (_ :: evs));
      [apply managed_quiet; by repeat constructor|].
    apply (managed_app _ (self w) _ _ [_] evs);
      [apply managed_quiet; by repeat constructor|done].
  - apply (managed_app _ (self w) _ _ [_] (_ :: evs ++ [_]));
      [apply managed_quiet; by repeat constructor|].
    apply (managed_app _ (self w) _ _ [_] (evs ++ [_]));
      [apply managed_quiet; by repeat constructor|].
    apply (managed_app _ (self w') _ _ evs [_]); [done|].
    apply managed_quiet; by repeat constructor.
Qed.

(** ** Opening a position *)

(** Unless the terminal confirms the order, sending it changes
    nothing in the object. *)
Lemma send_order_post sig req w :
  post (send_order sig req) w (fun r w' evs =>
    match r with
    | Ok (Some res) =>
        retcode res <> TRADE_RETCODE_DONE -> self w' = self w
    | Ok None => False
    | Raise _ => self w' = self w
    end).
Proof.
  unfold send_order. wrun; [|done].
  case_bool_decide as Hcode; wrun; [|done].
  apply post_now. intros t e1 _. wrun. done.
Qed.

Lemma prepare_order_post sig sym w :
  post (prepare_order sig sym) w (fun _ w' evs =>
    shadow_step (self w) (self w') evs).
Proof.
  unfold prepare_order.
  repeat case_bool_decide; wrun; try apply shadow_step_same.
  all: eapply post_mono; [apply close_trade_post|].
  all: simpl; intros r w1 ev1 (-> & Hs & _); wrun.
  all: eapply shadow_step_mono; [done|]; intros ev Hev;
    apply elem_of_app; by left.
Qed.

Lemma order_after_prepare_post sig sym w :
  post (order_steps sig sym) w
    (fun r w' evs =>
       match r with
       | Ok (Some res) =>
           retcode res <> TRADE_RETCODE_DONE ->
           shadow_step (self w) (self w') evs
       | _ => shadow_step (self w) (self w') evs
       end).
Proof.
  unfold order_steps. wstep. eapply post_mono; [apply prepare_order_post|].
  simpl. intros [[req|]|e] w1 ev1 Hs; wrun; try done.
  - eapply post_mono; [apply send_order_post|].
    simpl. intros [[res|]|e] w2 ev2 H2; try done.
    + intros Hcode. rewrite (H2 Hcode).
      eapply shadow_step_mono; [done|]. intros ev Hev.
      apply elem_of_app; by left.
    + rewrite H2. eapply shadow_step_mono; [done|]. intros ev Hev.
      apply elem_of_app; by left.
  - by rewrite app_nil_r.
Qed.

Lemma get_position_type_post sym w Q :
  (forall ans e, positions_get sym (env w) = (ans, e) ->
     Q (Ok match ans with
           | Some (first :: _) => Some (type_name (type first))
           | _ => None
           end)
       {| env := e; self := self w |} [EvPositionsGet sym ans]) ->
  post (get_position_type sym) w Q.
Proof.
  intros HQ. unfold get_position_type. wstep.
  apply post_positions_get. intros ans e Hans.
  specialize (HQ ans e Hans).
  destruct ans as [[|first rest]|]; wrun; by rewrite app_nil_r.
Qed.

Lemma execute_trade_post sig sym w :
  post (execute_trade sig sym) w (fun r w' evs =>
    match r with
    | Ok (Some res) =>
        retcode res <> TRADE_RETCODE_DONE ->
        shadow_step (self w) (self w') evs
    | _ => shadow_step (self w) (self w') evs
    end).
Proof.
  unfold execute_trade. wrun.
  case_bool_decide; wrun; [apply shadow_step_same|].
  apply get_position_type_post. intros ans e _.
  assert (Hrest : post (order_steps sig sym) {| env := e; self := self w |}
    (fun r w' evs => forall pre,
       match r with
       | Ok (Some res) =>
           retcode res <> TRADE_RETCODE_DONE ->
           shadow_step (self w) (self w') (pre ++ evs)
       | _ => shadow_step (self w) (self w') (pre ++ evs)
       end)).
  { eapply post_mono; [apply order_after_prepare_post|].
    simpl. intros r w' evs Hr pre.
    destruct r as [[res|]|e']; [intros Hcode; specialize (Hr Hcode)|..].
    all: eapply shadow_step_mono; [done|]; intros ev Hev;
      apply elem_of_app; by right. }
  destruct ans as [[|first rest]|]; cbn beta iota.
  1, 3: eapply post_mono; [apply Hrest|];
        simpl; intros r w' evs Hr; apply (Hr [_]).
  case_bool_decide; [wrun; apply shadow_step_same|].
  wstep. wstep. cbn beta iota.
  eapply post_mono; [apply Hrest|].
  simpl. intros r w' evs Hr. apply (Hr [_; _]).
Qed.
End Executor.

(** ** Properties of the trade executor *)

Section ExecutorClaims.
Context {E : Type} `{!Terminal E}.
Implicit Types w : World E.

(** C3. Minimum dwell time: a position whose shadow entry is younger
    than the holding threshold of 60 seconds when [manage_trades]
    reads the clock gets no closing order in that cycle, whatever the
    quotes, hence whatever its profit. *)
Theorem manage_keeps_young_positions sym w tk info :
  active_trades (self w) !! tk = Some info ->
  time_of_manage sym w - start_time info < holding_threshold ->
  Forall (fun ev => closes_ticket tk ev = false)
         (events_of (manage_trades sym w)).
Proof.
  intros Hinfo Hyoung.
  destruct (manage_trades_post sym w) as (_ & _ & _ & _ & Hheld).
  apply Forall_forall. intros ev Hin.
  destruct (closes_ticket tk ev) eqn:Hcl; [|done].
  destruct (Hheld ev tk Hin Hcl) as (info' & Hinfo' & Hlong).
  assert (info' = info) as -> by congruence.
  unfold held_long_enough in Hlong. apply Z.leb_le in Hlong. lia.
Qed.

(** C9. The take-profit branch of [manage_trades] is unreachable: the
    exit policy never selects the profit target; once the holding
    threshold has passed it closes on a positive profit, else on a
    profit of at most -5, else not at all; and no call of
    [manage_trades] writes the profit-target record. *)
Theorem profit_target_never_fires :
  (forall time_open profit, exit_rule time_open profit <> Some ProfitTarget) /\
  (forall time_open profit,
     exit_rule time_open profit =
       if held_long_enough time_open then
         if F64.gtb profit (F64.of_int 0) then Some InProfit
         else if F64.leb profit (F64.of_int (-5)) then Some StopLoss
         else None
       else None) /\
  (forall sym w,
     Forall (fun ev => is_profit_target_record ev = false)
            (events_of (manage_trades sym w))).
Proof.
  split; [apply exit_rule_never_profit_target|]. split.
  - intros t p. unfold exit_rule.
    destruct (held_long_enough t); [|done].
    destruct (F64.gtb p (F64.of_int 0)) eqn:Hpos; [done|].
    destruct (F64.leb p (F64.of_int (-5))); [done|].
    by rewrite (not_positive_not_above_two p Hpos).
  - intros sym w. by destruct (manage_trades_post sym w) as (_ & _ & _ & ? & _).
Qed.

Lemma no_positions_manage sym w :
  (positions_get sym (env w)).1 = None \/
  (positions_get sym (env w)).1 = Some [] ->
  self (state_of (manage_trades sym w)) = self w /\
  Forall (fun ev => is_order ev = false) (events_of (manage_trades sym w)).
Proof.
  intros Hnone.
  unfold manage_trades, try_except, bind, mt5_positions_get,
    state_of, events_of.
  destruct (positions_get sym (env w)) as [ans e]. simpl in Hnone.
  destruct Hnone as [->| ->]; simpl; split; by repeat constructor.
Qed.

Lemma no_positions_close sym ptype only w :
  (positions_get sym (env w)).1 = None \/
  (positions_get sym (env w)).1 = Some [] ->
  self (state_of (close_trade sym ptype only w)) = self w /\
  Forall (fun ev => is_order ev = false)
         (events_of (close_trade sym ptype only w)).
Proof.
  intros Hnone.
  unfold close_trade, try_except, bind, mt5_positions_get,
    state_of, events_of.
  destruct (positions_get sym (env w)) as [ans e]. simpl in Hnone.
  destruct Hnone as [->| ->]; simpl; split; by repeat constructor.
Qed.

(** C1, as the code has it. [manage_trades] and [close_trade] act on
    a shadow entry only after reconfirming the position: every order
    they submit closes a ticket that the most recent answer of
    [positions_get] in the same call listed. A shadow entry is dropped
    only when the terminal confirms a closing order for its ticket.
    When the terminal reports no open position, both return without
    an order and leave the object, shadow map included, as it was. *)
Theorem shadow_entries_reconfirmed_not_reconciled sym ptype only w :
  let managing := manage_trades sym w in
  let closing := close_trade sym ptype only w in
  (reconfirmed [] (events_of managing) = true /\
   shadow_step (self w) (self (state_of managing)) (events_of managing)) /\
  (reconfirmed [] (events_of closing) = true /\
   shadow_step (self w) (self (state_of closing)) (events_of closing)) /\
  ((positions_get sym (env w)).1 = None \/
   (positions_get sym (env w)).1 = Some [] ->
   (self (state_of managing) = self w /\
    Forall (fun ev => is_order ev = false) (events_of managing)) /\
   (self (state_of closing) = self w /\
    Forall (fun ev => is_order ev = false) (events_of closing))).
Proof.
  cbn zeta. split; [|split].
  - destruct (manage_trades_post sym w) as (_ & Hs & Hr & _). by split.
  - destruct (close_trade_post sym ptype only w) as (_ & Hs & rest & Hev & Hrest).
    split; [|done]. rewrite Hev. simpl.
    by eapply closing_events_reconfirmed.
  - intros Hnone. split; [by apply no_positions_manage|by apply no_positions_close].
Qed.

(** C2, as the code has it. [execute_trade] suppresses a signal equal
    to the last executed one whether or not a matching position is
    open: it returns at once, without asking the terminal, without an
    order and without touching its state. *)
Theorem repeated_signal_is_ignored sig sym w :
  last_signal (self w) = Some sig ->
  execute_trade sig sym w = (Ok None, w, [EvLog (IgnoringSameAsPrevious sig)]).
Proof.
  intros Hlast.
  unfold execute_trade, bind, get_self, get, ret. simpl.
  rewrite Hlast, bool_decide_true by done. done.
Qed.

(** C4, as the code has it. When the terminal rejects the opening
    order, [execute_trade] has not changed [last_signal] or
    [trade_amount] and has added or changed no shadow entry; a shadow
    entry is missing afterwards only if the terminal confirmed a closing
    order for its ticket on the way. If no closing order was confirmed,
    the object is as it was before the call. *)
Theorem rejected_open_only_drops_closed sig sym w res :
  result_of (execute_trade sig sym w) = Ok (Some res) ->
  retcode res <> TRADE_RETCODE_DONE ->
  let out := execute_trade sig sym w in
  shadow_step (self w) (self (state_of out)) (events_of out) /\
  (Forall (fun ev => forall tk, closed_ticket tk ev = false) (events_of out) ->
   self (state_of out) = self w).
Proof.
  intros Hres Hcode. cbn zeta.
  pose proof (execute_trade_post sig sym w) as Hpost.
  unfold post in Hpost. rewrite Hres in Hpost. specialize (Hpost Hcode).
  split; [done|]. intros Hno. by eapply shadow_step_no_close.
Qed.

(** C10. [get_position_type] looks at the first listed position only,
    and so does [execute_trade]: a signal in the direction of the first
    position is ignored and one in the other direction goes on to the
    closing and opening steps, whatever the directions of the positions
    listed after the first. *)
Theorem first_position_decides sig sym w first others e :
  positions_get sym (env w) = (Some (first :: others), e) ->
  Some sig <> last_signal (self w) ->
  let w1 := {| env := e; self := self w |} in
  let query := EvPositionsGet sym (Some (first :: others)) in
  get_position_type sym w = (Ok (Some (type_name (type first))), w1, [query]) /\
  (sig = type_name (type first) ->
   execute_trade sig sym w =
     (Ok None, w1, [query; EvLog (IgnoringAlreadyInPosition sig)])) /\
  (sig <> type_name (type first) ->
   execute_trade sig sym w =
     (result_of (order_steps sig sym w1),
      state_of (order_steps sig sym w1),
      query :: EvLog (ClosingToOpen (type_name (type first)) sig)
            :: events_of (order_steps sig sym w1))).
Proof.
  intros Hpos Hlast. cbn zeta.
  assert (Hget : get_position_type sym w =
    (Ok (Some (type_name (type first))), {| env := e; self := self w |},
     [EvPositionsGet sym (Some (first :: others))])).
  { unfold get_position_type, bind, mt5_positions_get. by rewrite Hpos. }
  split; [done|].
  unfold execute_trade, bind, get_self, get, ret, log, emit.
  cbn -[order_steps get_position_type bool_decide].
  rewrite bool_decide_false by done. rewrite Hget.
  cbn -[order_steps bool_decide].
  split; intros Hsig.
  - by rewrite bool_decide_true by done.
  - rewrite bool_decide_false by done.
    by destruct (order_steps sig sym _) as [[r s] evs].
Qed.
End ExecutorClaims.

(** A position of thirty seconds and a profit of 1000 is left open. *)
Lemma manage_keeps_young_positions_witness :
  Forall (fun ev => closes_ticket 1 ev = false)
         (events_of (manage_trades EURUSD young_position)).
Proof.
  apply (manage_keeps_young_positions EURUSD young_position 1 (a_trade 0)).
  - reflexivity.
  - reflexivity.
Defined.

(** C1 as stated fails: the executor opens position 1, the broker stops
    it out, and after two more cycles of [manage_trades] the shadow entry
    of ticket 1 is still there although the terminal lists no position. *)
Lemma stale_shadow_entry_persists :
  active_trades (self stale_run) !! 1 = Some (a_trade 0) /\
  (positions_get EURUSD (env stale_run)).1 = Some [].
Proof. split; reflexivity. Qed.

(** With no position listed, managing and closing leave the shadow
    entry of the vanished position where it is. *)
Lemma shadow_entries_reconfirmed_not_reconciled_witness :
  self (state_of (manage_trades EURUSD stale_run)) = self stale_run /\
  self (state_of (close_trade EURUSD None (Some 1) stale_run)) = self stale_run.
Proof.
  destruct (shadow_entries_reconfirmed_not_reconciled
              EURUSD None (Some 1) stale_run) as (_ & _ & Hnone).
  destruct Hnone as [[Hm _] [Hc _]]; [right; reflexivity|].
  split; [exact Hm|exact Hc].
Defined.

(** C2 as stated fails: after the run above the last executed signal
    is [buy] and the terminal lists no position, and a new [buy] submits
    no order and changes nothing. *)
Lemma repeated_signal_without_position_no_order :
  last_signal (self stale_run) = Some "buy" /\
  (positions_get EURUSD (env stale_run)).1 = Some [] /\
  Forall (fun ev => is_order ev = false)
         (events_of (execute_trade "buy" EURUSD stale_run)) /\
  state_of (execute_trade "buy" EURUSD stale_run) = stale_run.
Proof. repeat split; by repeat constructor. Qed.

Lemma repeated_signal_is_ignored_witness :
  execute_trade "buy" EURUSD stale_run =
  (Ok None, stale_run, [EvLog (IgnoringSameAsPrevious "buy")]).
Proof.
  apply (repeated_signal_is_ignored "buy" EURUSD stale_run).
  reflexivity.
Defined.

(** C4 as stated fails: the sell position 7 is closed first, then the
    buy order is rejected, and the shadow map has lost its entry. *)
Lemma rejected_open_after_close_mutates :
  result_of (execute_trade "buy" EURUSD reversal_rejected) =
    Ok (Some {| retcode := TRADE_RETCODE_REJECT; order := 9 |}) /\
  active_trades (self reversal_rejected) !! 7 = Some (a_trade 0) /\
  active_trades (self (state_of (execute_trade "buy" EURUSD reversal_rejected)))
    !! 7 = None.
Proof. repeat split. Qed.

Lemma rejected_open_only_drops_closed_witness :
  self (state_of (execute_trade "buy" EURUSD open_rejected)) = self open_rejected.
Proof.
  apply (rejected_open_only_drops_closed "buy" EURUSD open_rejected
           {| retcode := TRADE_RETCODE_REJECT; order := 1 |}).
  - reflexivity.
  - discriminate.
  - repeat constructor; intros tk; reflexivity.
Defined.

(** With a buy position listed first and a sell position after it, a
    [buy] is ignored although a sell position is open. *)
Lemma first_position_decides_witness :
  execute_trade "buy" EURUSD mixed_positions =
  (Ok None, mixed_positions,
   [EvPositionsGet EURUSD (Some [a_position 1 ORDER_TYPE_BUY;
                                 a_position 2 ORDER_TYPE_SELL]);
    EvLog (IgnoringAlreadyInPosition "buy")]).
Proof.
  apply (first_position_decides "buy" EURUSD mixed_positions
           (a_position 1 ORDER_TYPE_BUY) [a_position 2 ORDER_TYPE_SELL]
           (env mixed_positions)).
  - reflexivity.
  - discriminate.
  - reflexivity.
Defined.

(* ===================================================================== *)
(** * Further properties of the signal generator *)
(* ===================================================================== *)

(** The body, run on a frame with close prices, assigns its columns and
    returns the frame without the intermediate ones. *)
Lemma strategy_body_frames {py_float : FloatOfStr} d xs :
  closes_of d = Some xs ->
  result_of (strategy_body d) =
    Ok (drop_columns intermediate_columns (frame_after_body d xs)) /\
  state_of (strategy_body d) = frame_after_body d xs.
Proof.
  intros (c & Hl & Hv)%closes_of_column.
  enough (post strategy_body d (fun r s _ =>
    r = Ok (drop_columns intermediate_columns (frame_after_body d xs)) /\
    s = frame_after_body d xs)) as H by exact H.
  unfold strategy_body.
  repeat step. rewrite Hl. repeat step.
  eapply post_intro; [apply Hv|]. cbn beta iota.
  repeat step.
  simpl_map. repeat step.
  eapply post_intro; [apply Hv|]. run.
  destruct (last_valid_index _); run; done.
Qed.

Lemma apply_strategy_frames {py_float : FloatOfStr} d xs :
  closes_of d = Some xs ->
  result_of (apply_strategy d) =
    Ok (drop_columns intermediate_columns (frame_after_body d xs)) /\
  state_of (apply_strategy d) = frame_after_body d xs.
Proof.
  intros [Hr Hs]%strategy_body_frames.
  unfold apply_strategy, try_except, result_of, state_of in *.
  destruct (strategy_body d) as [[r s] evs]; simpl in *. by subst.
Qed.

Lemma strategy_body_no_closes {py_float : FloatOfStr} d :
  closes_of d = None -> exists e, result_of (strategy_body d) = Raise e.
Proof.
  intros Hc. unfold closes_of in Hc.
  unfold strategy_body, bind, getitem, get, log, emit, ret, raise, values,
    result_of, bind.
  destruct (columns d !! "close") as [c|]; [|by eexists].
  simpl in Hc. rewrite Hc. by eexists.
Qed.

Lemma apply_strategy_no_closes {py_float : FloatOfStr} d :
  closes_of d = None ->
  result_of (apply_strategy d) = Ok d /\ state_of (apply_strategy d) = d.
Proof.
  intros [e Hr]%strategy_body_no_closes.
  destruct (strategy_body_raises d e Hr) as [Hs _].
  unfold apply_strategy, try_except, result_of, state_of in *.
  destruct (strategy_body d) as [[r s] evs]; simpl in *. by subst.
Qed.

(** ** Rows of the computed columns *)

Lemma crossover_of_row xs i :
  (i < length xs)%nat ->
  crossover_of (rolling_mean 3 xs) (rolling_mean 7 xs) !! i =
    Some (crossover_at xs i).
Proof.
  intros Hi. unfold crossover_of. rewrite lookup_zip_with.
  by rewrite !rolling_mean_row.
Qed.

Lemma trend_strength_of_row xs i :
  (i < length xs)%nat ->
  trend_strength_of (rolling_mean 3 xs) (rolling_mean 7 xs) !! i =
    Some (trend_strength_at xs i).
Proof.
  intros Hi. unfold trend_strength_of. rewrite lookup_zip_with.
  by rewrite !rolling_mean_row.
Qed.

Lemma diff_row xs i :
  (i < length xs)%nat ->
  diff (crossover_of (rolling_mean 3 xs) (rolling_mean 7 xs)) !! i =
    Some (change_at xs i).
Proof.
  intros Hi.
  pose proof (crossover_of_row xs 0) as H0.
  destruct (crossover_of _ _) as [|c0 later] eqn:Hcs.
  { by specialize (H0 ltac:(lia)). }
  destruct i as [|j]; [done|].
  change (zip_with (fun prev cur => F64.sub (F64.of_int cur) (F64.of_int prev))
            (c0 :: later) later !! j = Some (change_at xs (S j))).
  rewrite lookup_zip_with.
  pose proof (crossover_of_row xs j) as Hj.
  pose proof (crossover_of_row xs (S j) Hi) as HSj.
  rewrite Hcs in Hj, HSj. rewrite Hj by lia.
  change ((c0 :: later) !! S j) with (later !! j) in HSj. by rewrite HSj.
Qed.

Lemma signals_of_row n xs i :
  (i < n)%nat -> (i < length xs)%nat ->
  signals_of n xs !! i = Some (row_signal xs i).
Proof.
  intros Hn Hi. unfold signals_of.
  rewrite !lookup_zip_with, !list_lookup_fmap.
  rewrite trend_strength_of_row, diff_row by done.
  rewrite (lookup_replicate_2 n None i Hn). done.
Qed.

Lemma signals_of_beyond n xs i :
  (n <= i)%nat -> signals_of n xs !! i = None.
Proof.
  intros Hn. unfold signals_of.
  destruct (zip_with _ _ _ !! i) as [v|] eqn:Hv; [|done].
  apply lookup_zip_with_Some in Hv as (? & ? & _ & _ & Hv).
  apply lookup_zip_with_Some in Hv as (? & ? & _ & _ & Hv).
  apply lookup_zip_with_Some in Hv as (? & ? & _ & _ & Hv).
  apply lookup_replicate in Hv as [_ ?]. lia.
Qed.

Lemma length_signals_of xs : length (signals_of (length xs) xs) = length xs.
Proof.
  unfold signals_of, trend_strength_of, crossover_of.
  assert (Hd : forall cs : list Z, length (diff cs) = length cs).
  { intros [|c cs]; [done|]. cbn [diff length]. rewrite length_zip_with.
    cbn [length]. lia. }
  rewrite !length_zip_with, !length_fmap, Hd, !length_zip_with,
    !length_rolling_mean, length_replicate. lia.
Qed.

(** ** Lookups in the frames *)

Lemma frame_after_body_other d xs k :
  k ∉ assigned_columns ->
  columns (frame_after_body d xs) !! k = columns d !! k.
Proof.
  intros Hk. unfold frame_after_body. cbn [columns].
  rewrite !lookup_insert_ne; [done|..]; intros <-; apply Hk;
    unfold assigned_columns; set_solver.
Qed.

Lemma drop_intermediate_lookup d k :
  columns (drop_columns intermediate_columns d) !! k =
    if bool_decide (k ∈ intermediate_columns) then None else columns d !! k.
Proof.
  unfold drop_columns, intermediate_columns. cbn [columns foldr].
  case_bool_decide as Hk.
  - repeat (apply elem_of_cons in Hk as [->|Hk]; [by simpl_map|]).
    by apply elem_of_nil in Hk.
  - rewrite !lookup_delete_ne; [done|..]; intros <-; apply Hk; set_solver.
Qed.

(** ** The running sum on prices with decimals

    The mean of a window of one repeated value is that value: after
    seven closes of 1.1 both averages are 1.1 and the indicator is 0,
    where the plain sums of the two windows, divided by 3 and by 7,
    give 1.1 and 1.0999999999999999. The eighth close alone decides: a
    rise is a [buy], a fall leaves the short average below the long one
    and changes nothing. *)
Lemma flat_window_mean_is_the_value :
  window_mean 3 flat_then_up 6 = ratio 11 10 /\
  window_mean 7 flat_then_up 6 = ratio 11 10 /\
  crossover_at flat_then_up 6 = 0.
Proof. repeat split; vm_compute; reflexivity. Qed.

Lemma rise_after_flat_window_is_a_buy :
  signals_of 8 flat_then_up =
    [None; None; None; None; None; None; None; Some "buy"].
Proof. vm_compute; reflexivity. Qed.

Lemma fall_after_flat_window_is_no_signal :
  signals_of 8 flat_then_down = replicate 8 None.
Proof. vm_compute; reflexivity. Qed.

(** X1. Trend-strength filter: a row of a bar series whose trend
    strength is below the minimum of 0.001 carries no signal, also when
    the crossover indicator changes there. *)
Theorem weak_trend_suppresses_signal {py_float : FloatOfStr} d closes i :
  bar_series d closes ->
  F64.ltb (trend_strength_at closes i) min_trend_strength = true ->
  exists out, apply_strategy_value d = Some out /\ signal_at out i = None.
Proof.
  intros [Hc Hlen] Hweak.
  destruct (apply_strategy_signal d closes Hc) as (out & Hout & Hsig).
  exists out. split; [done|]. rewrite (signal_at_signals _ _ _ Hsig).
  destruct (decide (i < nrows d)%nat) as [Hi|Hi].
  - rewrite signals_of_row by lia. unfold row_signal. by rewrite Hweak.
  - by rewrite signals_of_beyond by lia.
Qed.

(** X2. A change of the crossover indicator fires: in a bar series, at a
    row after the first whose trend strength is not below the minimum,
    the signal is [buy] when the indicator goes from 0 to 1 and [sell]
    when it goes from 1 to 0. *)
Theorem crossover_change_fires {py_float : FloatOfStr} d closes j :
  bar_series d closes ->
  (S j < nrows d)%nat ->
  F64.ltb (trend_strength_at closes (S j)) min_trend_strength = false ->
  exists out, apply_strategy_value d = Some out /\
    (crossover_at closes j = 0 -> crossover_at closes (S j) = 1 ->
     signal_at out (S j) = Some "buy") /\
    (crossover_at closes j = 1 -> crossover_at closes (S j) = 0 ->
     signal_at out (S j) = Some "sell").
Proof.
  intros [Hc Hlen] Hj Hstrong.
  destruct (apply_strategy_signal d closes Hc) as (out & Hout & Hsig).
  exists out. split; [done|]. rewrite (signal_at_signals _ _ _ Hsig).
  rewrite signals_of_row by lia. unfold row_signal. rewrite Hstrong.
  unfold change_at. split; intros -> ->; reflexivity.
Qed.

(** ** The filter and the firing rule in the scenarios *)

Section FilterScenarios.
#[local] Existing Instance no_numerals.

(** The indicator changes at the last of the quiet bars, and the [buy]
    assigned there is taken back. *)
Lemma weak_trend_suppresses_signal_witness :
  crossover_at (F64.of_int <$> quiet_closes) 6 = 0 /\
  crossover_at (F64.of_int <$> quiet_closes) 7 = 1 /\
  F64.ltb (trend_strength_at (F64.of_int <$> quiet_closes) 7)
          min_trend_strength = true /\
  exists out, apply_strategy_value (frame_of_closes quiet_closes) = Some out /\
    signal_at out 7 = None.
Proof.
  split; [vm_compute; reflexivity|].
  split; [vm_compute; reflexivity|].
  split; [vm_compute; reflexivity|].
  apply (weak_trend_suppresses_signal (frame_of_closes quiet_closes)
           (F64.of_int <$> quiet_closes) 7).
  - split; reflexivity.
  - vm_compute; reflexivity.
Defined.

Lemma crossover_change_fires_witness :
  exists out, apply_strategy_value (frame_of_closes falling_closes) = Some out /\
    signal_at out 7 = Some "sell".
Proof.
  assert (Hbars : bar_series (frame_of_closes falling_closes)
                    (F64.of_int <$> falling_closes)) by (split; reflexivity).
  assert (Hrow : (7 < nrows (frame_of_closes falling_closes))%nat)
    by (apply Nat.ltb_lt; reflexivity).
  assert (Hstrong : F64.ltb (trend_strength_at (F64.of_int <$> falling_closes) 7)
                      min_trend_strength = false) by (vm_compute; reflexivity).
  destruct (crossover_change_fires _ _ 6 Hbars Hrow Hstrong)
    as (out & Hout & _ & Hsell).
  exists out. split; [exact Hout|].
  apply Hsell; vm_compute; reflexivity.
Defined.
End FilterScenarios.

Lemma apply_strategy_value_frames {py_float : FloatOfStr} d xs :
  closes_of d = Some xs ->
  apply_strategy_value d =
    Some (drop_columns intermediate_columns (frame_after_body d xs)).
Proof.
  intros [Hr _]%apply_strategy_frames. unfold apply_strategy_value.
  by rewrite Hr.
Qed.

(** X3. The frame [apply_strategy] returns for a bar series: the rows
    and every column it does not assign are those of the input; the moving
    averages and the signal are there, one value per row; the three
    intermediate columns are not there, even if the input had columns of
    those names. *)
Theorem returned_frame_shape {py_float : FloatOfStr} d closes :
  bar_series d closes ->
  exists out short long sig,
    apply_strategy_value d = Some out /\
    nrows out = nrows d /\
    (forall k, k ∉ assigned_columns -> columns out !! k = columns d !! k) /\
    (forall k, k ∈ intermediate_columns -> columns out !! k = None) /\
    columns out !! "SMA_Short" = Some (FloatCol short) /\
    columns out !! "SMA_Long" = Some (FloatCol long) /\
    columns out !! "signal" = Some (ObjectCol sig) /\
    length short = nrows d /\ length long = nrows d /\ length sig = nrows d.
Proof.
  intros [Hc Hlen].
  exists (drop_columns intermediate_columns (frame_after_body d closes)),
    (rolling_mean 3 closes), (rolling_mean 7 closes),
    (signals_of (nrows d) closes).
  split; [by apply apply_strategy_value_frames|]. split; [done|].
  split; [|split].
  - intros k Hk. rewrite drop_intermediate_lookup, bool_decide_false.
    + by apply frame_after_body_other.
    + intros Hin. apply Hk. unfold intermediate_columns, assigned_columns in *.
      set_solver.
  - intros k Hk. by rewrite drop_intermediate_lookup, bool_decide_true.
  - rewrite !drop_intermediate_lookup. unfold frame_after_body.
    cbn [columns]. repeat split; try by simpl_map.
    + by rewrite length_rolling_mean.
    + by rewrite length_rolling_mean.
    + rewrite <- Hlen. apply length_signals_of.
Qed.

(** X4. [apply_strategy] works on the caller's frame: after a call
    that succeeds, the object passed in holds all six assigned columns,
    the three intermediate ones included, and its other columns are
    untouched. *)
Theorem input_frame_modified_in_place {py_float : FloatOfStr} d closes :
  closes_of d = Some closes ->
  let after := state_of (apply_strategy d) in
  nrows after = nrows d /\
  (forall k, k ∈ assigned_columns -> is_Some (columns after !! k)) /\
  (forall k, k ∉ assigned_columns -> columns after !! k = columns d !! k).
Proof.
  intros Hc. cbn zeta.
  destruct (apply_strategy_frames d closes Hc) as [_ ->].
  split; [done|]. split.
  - intros k Hk. unfold assigned_columns in Hk. unfold frame_after_body.
    cbn [columns].
    repeat (apply elem_of_cons in Hk as [->|Hk]; [by simpl_map|]).
    by apply elem_of_nil in Hk.
  - intros k Hk. by apply frame_after_body_other.
Qed.

(** X5. [apply_strategy] is idempotent on what it returns: applied to
    its own output for a bar series it returns that same frame. *)
Theorem apply_strategy_idempotent {py_float : FloatOfStr} d closes out :
  bar_series d closes ->
  apply_strategy_value d = Some out ->
  apply_strategy_value out = Some out.
Proof.
  intros [Hc Hlen] Hout.
  rewrite (apply_strategy_value_frames d closes Hc) in Hout.
  injection Hout as <-.
  set (out := drop_columns intermediate_columns (frame_after_body d closes)).
  assert (Hc' : closes_of out = Some closes).
  { unfold closes_of, out. rewrite drop_intermediate_lookup, bool_decide_false.
    - rewrite frame_after_body_other; [done|].
      unfold assigned_columns. set_solver.
    - unfold intermediate_columns. set_solver. }
  rewrite (apply_strategy_value_frames out closes Hc'). f_equal.
  assert (Heq : forall a b : DataFrame,
    nrows a = nrows b -> columns a = columns b -> a = b).
  { intros [] []. simpl. congruence. }
  apply Heq; [done|]. apply map_eq. intros k.
  rewrite drop_intermediate_lookup.
  destruct (decide (k ∈ intermediate_columns)) as [Hi|Hi].
  - rewrite bool_decide_true by done. unfold out.
    by rewrite drop_intermediate_lookup, bool_decide_true.
  - rewrite bool_decide_false by done.
    destruct (decide (k ∈ assigned_columns)) as [Hk|Hk].
    + unfold out at 2. rewrite drop_intermediate_lookup, bool_decide_false by done.
      unfold frame_after_body. cbn [columns nrows].
      change (nrows out) with (nrows d).
      unfold assigned_columns in Hk.
      repeat (apply elem_of_cons in Hk as [->|Hk]; [by simpl_map|]).
      by apply elem_of_nil in Hk.
    + by rewrite frame_after_body_other.
Qed.

(** X6. [apply_strategy] returns for every frame, whatever its columns
    hold: it never lets an exception out, and the frame it returns has
    the rows and the [close] column of the frame it was given. *)
Theorem apply_strategy_always_returns {py_float : FloatOfStr} d :
  exists out,
    result_of (apply_strategy d) = Ok out /\
    nrows out = nrows d /\
    columns out !! "close" = columns d !! "close".
Proof.
  destruct (closes_of d) as [xs|] eqn:Hc.
  - destruct (apply_strategy_frames d xs Hc) as [Hr _].
    eexists. split; [exact Hr|]. split; [done|].
    rewrite drop_intermediate_lookup, bool_decide_false.
    + apply frame_after_body_other. unfold assigned_columns. set_solver.
    + unfold intermediate_columns. set_solver.
  - destruct (apply_strategy_no_closes d Hc) as [Hr _]. by exists d.
Qed.

(** ** The frames of the scenarios *)

Section FrameScenarios.
#[local] Existing Instance no_numerals.

Lemma returned_frame_shape_witness :
  exists out short long sig,
    apply_strategy_value (frame_of_closes eight_closes) = Some out /\
    nrows out = 8%nat /\
    (forall k, k ∉ assigned_columns ->
       columns out !! k = columns (frame_of_closes eight_closes) !! k) /\
    (forall k, k ∈ intermediate_columns -> columns out !! k = None) /\
    columns out !! "SMA_Short" = Some (FloatCol short) /\
    columns out !! "SMA_Long" = Some (FloatCol long) /\
    columns out !! "signal" = Some (ObjectCol sig) /\
    length short = 8%nat /\ length long = 8%nat /\ length sig = 8%nat.
Proof.
  apply (returned_frame_shape (frame_of_closes eight_closes)
           (F64.of_int <$> eight_closes)).
  split; reflexivity.
Defined.

Lemma input_frame_modified_in_place_witness :
  is_Some (columns (state_of (apply_strategy (frame_of_closes eight_closes)))
             !! "crossover").
Proof.
  destruct (input_frame_modified_in_place (frame_of_closes eight_closes)
              (F64.of_int <$> eight_closes)) as (_ & Hin & _);
    [reflexivity|].
  apply Hin. unfold assigned_columns. set_solver.
Defined.

Lemma apply_strategy_idempotent_witness :
  exists out, apply_strategy_value (frame_of_closes eight_closes) = Some out /\
    apply_strategy_value out = Some out.
Proof.
  destruct (apply_strategy_signal (frame_of_closes eight_closes)
              (F64.of_int <$> eight_closes)) as (out & Hout & _);
    [reflexivity|].
  exists out. split; [exact Hout|].
  apply (apply_strategy_idempotent (frame_of_closes eight_closes)
           (F64.of_int <$> eight_closes) out); [split; reflexivity|exact Hout].
Defined.
End FrameScenarios.

(* ===================================================================== *)
(** * Further properties of the trade executor *)
(* ===================================================================== *)

Ltac xstep :=
  lazymatch goal with
  | |- post (bind _ _) _ _ => apply post_bind
  | |- post get _ _ => apply post_get
  | |- post (put _) _ _ => apply post_put
  | |- post (log _) _ _ => apply post_log
  | |- post (ret _) _ _ => apply post_ret
  | |- post (raise _) _ _ => apply post_raise
  | |- post get_self _ _ => unfold get_self
  | |- post (set_active_trades _) _ _ => unfold set_active_trades
  | |- post (set_last_signal _) _ _ => unfold set_last_signal
  | |- post (attr _ _) _ _ => apply post_attr; [intros ? ->|intros ->]
  | |- post (try_except _ _) _ _ => apply post_try_except
  end; cbn [env self trade_amount active_trades last_signal].

Ltac xrun := repeat (first [xstep | progress cbn beta iota]).

Section MoreExecutor.
Context {E : Type} `{!Terminal E}.
Implicit Types w : World E.

Lemma post_tick_answer sym w Q :
(forall ans e, symbol_info_tick sym (env w) = (ans, e) ->
   Q (Ok ans) {| env := e; self := self w |} [EvTick sym ans]) ->
post (mt5_symbol_info_tick sym) w Q.
Proof.
intros HQ. unfold post, mt5_symbol_info_tick.
destruct (symbol_info_tick sym (env w)) as [ans e] eqn:Heq. by apply HQ.
Qed.

(** X7. [manage_trades] and [close_trade] never let an exception out,
  whatever the terminal answers: a missing quote, a missing order
  result and a missing position list all end in a normal return. *)
Theorem manage_and_close_never_raise sym ptype only w :
result_of (manage_trades sym w) = Ok tt /\
result_of (close_trade sym ptype only w) = Ok tt.
Proof.
split.
- by destruct (manage_trades_post sym w) as [? _].
- by destruct (close_trade_post sym ptype only w) as [? _].
Qed.

(** ** The orders of [close_trade] *)

Lemma offsets_listed_mono sym ps ptype only evs evs' ev :
offsets_listed sym ps ptype only evs ev ->
(forall x, x ∈ evs -> x ∈ evs') ->
offsets_listed sym ps ptype only evs' ev.
Proof.
destruct ev as [| | |req ans]; try done.
intros (p & t & ? & ? & ? & ?) Hsub. exists p, t. auto.
Qed.

Lemma close_position_offsets sym p ps ptype only w :
p ∈ ps -> skipped ptype only p = false ->
post (close_position sym p) w (fun _ _ evs =>
  forall ev, ev ∈ evs -> offsets_listed sym ps ptype only evs ev).
Proof.
intros Hin Hskip. unfold close_position. xstep.
apply post_symbol_info_tick. intros tick e. cbn beta iota. xstep.
assert (Hgood : forall t ans rest ev,
  ev ∈ [EvTick sym (Some t)] ++ [] ++
       [EvOrderSend (close_request sym p (closing_price p t)) ans] ++ rest ->
  Forall (fun x => is_order x = false) rest ->
  offsets_listed sym ps ptype only
    ([EvTick sym (Some t)] ++ [] ++
     [EvOrderSend (close_request sym p (closing_price p t)) ans] ++ rest) ev).
{ intros t ans rest ev Hev Hrest. simpl in Hev.
  apply elem_of_cons in Hev as [->|Hev]; [done|].
  apply elem_of_cons in Hev as [->|Hev].
  - exists p, t. repeat split; try done. by left.
  - rewrite Forall_forall in Hrest. specialize (Hrest ev Hev).
    by destruct ev. }
assert (Hnone : forall ev, ev ∈ [EvTick sym None] ++ [] ->
  offsets_listed sym ps ptype only ([EvTick sym None] ++ []) ev).
{ intros ev Hev. simpl in Hev. apply elem_of_cons in Hev as [->|Hev]; [done|].
  by apply elem_of_nil in Hev. }
destruct tick as [t|].
2: { destruct (type p); cbn [opposite attr]; xrun; apply Hnone. }
assert (Hrest : forall price, price = closing_price p t ->
  post
    (result <- mt5_order_send (close_request sym p price) ;;
     code <- attr retcode result ;;
     match result with
     | Some res =>
         if bool_decide (code ≠ TRADE_RETCODE_DONE) then
           log (FailedToClose (ticket p) res)
         else
           log (Closed (ticket p) res) ;;
           me <- get_self ;;
           match active_trades me !! ticket p with
           | Some _ =>
               set_active_trades (delete (ticket p) (active_trades me))
           | None => ret tt
           end
     | None => ret tt
     end) {| env := e; self := self w |}
    (fun _ _ ev2 => forall ev,
       ev ∈ [EvTick sym (Some t)] ++ [] ++ ev2 ->
       offsets_listed sym ps ptype only ([EvTick sym (Some t)] ++ [] ++ ev2) ev)).
{ intros price ->. xstep.
  apply post_order_send. intros ans e1. cbn beta iota. xrun.
  - case_bool_decide; xrun.
    + intros ev Hev. apply Hgood; [done|]. by repeat constructor.
    + destruct (active_trades (self w) !! ticket p); xrun.
      all: intros ev Hev; apply Hgood; [done|]; by repeat constructor.
  - intros ev Hev. apply Hgood; [done|]. by repeat constructor. }
destruct (type p) eqn:Hty; cbn [opposite attr]; xstep; cbn beta iota.
all: apply Hrest; unfold closing_price; by rewrite Hty.
Qed.

(** X8. Every order [close_trade] submits is the offsetting order of a
  position the terminal has just listed and that passes the ticket and
  type filters of the call: opposite type, the position's volume,
  ticket and magic number, deviation 30, at the bid of a received
  quote for a buy position and at the ask for a sell position. *)
Theorem close_trade_orders_offset_listed sym ptype only w :
let evs := events_of (close_trade sym ptype only w) in
let listed := default [] (positions_get sym (env w)).1 in
forall ev, ev ∈ evs -> offsets_listed sym listed ptype only evs ev.
Proof.
cbn zeta.
enough (post (close_trade sym ptype only) w (fun _ _ evs =>
  forall ev, ev ∈ evs ->
    offsets_listed sym (default [] (positions_get sym (env w)).1)
      ptype only evs ev)) as H by exact H.
unfold close_trade. xrun.
apply post_positions_get. intros ans e Hans. rewrite Hans. cbn [fst].
assert (Hquiet : forall ps evs ev,
  Forall (fun x => is_order x = false) evs -> ev ∈ evs ->
  offsets_listed sym ps ptype only evs ev).
{ intros ps evs ev Hq Hev. rewrite Forall_forall in Hq.
  specialize (Hq ev Hev). by destruct ev. }
destruct ans as [[|p0 ps]|].
1, 3: xrun; intros ev Hev; apply Hquiet; [by repeat constructor|done].
cbn [default].
eapply post_mono.
{ apply (post_for_each (fun _ evs =>
    forall ev, ev ∈ evs ->
      offsets_listed sym (p0 :: ps) ptype only evs ev)).
  - intros ev Hev. by apply elem_of_nil in Hev.
  - intros p w1 ev1 Hp H1.
    destruct (skipped ptype only p) eqn:Hskip.
    + xrun. by rewrite app_nil_r.
    + eapply post_mono;
        [apply (close_position_offsets sym p (p0 :: ps) ptype only w1 Hp Hskip)|].
      simpl. intros _ w2 ev2 H2 ev [Hev|Hev]%elem_of_app.
      * eapply offsets_listed_mono; [by apply H1|].
        intros x Hx. apply elem_of_app. by left.
      * eapply offsets_listed_mono; [by apply H2|].
        intros x Hx. apply elem_of_app. by right. }
simpl. intros r w' evs Hevs.
assert (Hwrap : forall pre suf ev,
  Forall (fun x => is_order x = false) pre ->
  Forall (fun x => is_order x = false) suf ->
  ev ∈ pre ++ evs ++ suf ->
  offsets_listed sym (p0 :: ps) ptype only (pre ++ evs ++ suf) ev).
{ intros pre suf ev Hpre Hsuf Hev.
  rewrite Forall_forall in Hpre. rewrite Forall_forall in Hsuf.
  apply elem_of_app in Hev as [Hev|Hev].
  { specialize (Hpre ev Hev). by destruct ev. }
  apply elem_of_app in Hev as [Hev|Hev].
  - eapply offsets_listed_mono; [by apply Hevs|].
    intros x Hx. apply elem_of_app. right. apply elem_of_app. by left.
  - specialize (Hsuf ev Hev). by destruct ev. }
destruct r as [[]|err]; xrun.
- intros ev Hev.
  pose proof (Hwrap [EvPositionsGet sym (Some (p0 :: ps))] [] ev) as Hw.
  rewrite app_nil_r in Hw.
  apply Hw; [by repeat constructor|done|exact Hev].
- intros ev Hev.
  apply (Hwrap [EvPositionsGet sym (Some (p0 :: ps))]
           [EvLog (ErrorWhileClosing err)] ev);
    [by repeat constructor|by repeat constructor|exact Hev].
Qed.
End MoreExecutor.

Lemma close_trade_orders_offset_listed_witness :
  offsets_listed EURUSD [a_position 7 ORDER_TYPE_SELL] (Some "sell") None
    (events_of (close_trade EURUSD (Some "sell") None reversal_rejected))
    (EvOrderSend (close_request EURUSD (a_position 7 ORDER_TYPE_SELL) one)
       (Some {| retcode := TRADE_RETCODE_DONE; order := 8 |})).
Proof.
  refine (close_trade_orders_offset_listed EURUSD (Some "sell") None
            reversal_rejected
            (EvOrderSend (close_request EURUSD (a_position 7 ORDER_TYPE_SELL) one)
               (Some {| retcode := TRADE_RETCODE_DONE; order := 8 |})) _).
  apply list_elem_of_lookup. exists 2%nat. reflexivity.
Defined.

Section ShadowBookkeeping.
Context {E : Type} `{!Terminal E}.
Implicit Types w : World E.

Lemma drops_confirmed_quiet (a : TradeExecutor) evs :
Forall (fun ev => forall tk, closed_ticket tk ev = false) evs ->
drops_confirmed a a evs.
Proof.
intros Hq tk.
replace (existsb (closed_ticket tk) evs) with false; [done|].
symmetry. induction Hq as [|ev evs Hev _ IH]; [done|].
simpl. by rewrite Hev, IH.
Qed.

Lemma drops_confirmed_app (a b c : TradeExecutor) ev1 ev2 :
drops_confirmed a b ev1 -> drops_confirmed b c ev2 ->
drops_confirmed a c (ev1 ++ ev2).
Proof.
intros H1 H2 tk. rewrite existsb_app, H2, H1.
by destruct (existsb (closed_ticket tk) ev1), (existsb (closed_ticket tk) ev2).
Qed.

Lemma close_position_drops sym p w :
post (close_position sym p) w (fun _ w' evs =>
  drops_confirmed (self w) (self w') evs).
Proof.
unfold close_position. xstep.
apply post_symbol_info_tick. intros tick e. cbn beta iota. xstep.
eapply (post_mono _ _ (fun _ w1 ev1 =>
  w1 = {| env := e; self := self w |} /\ ev1 = [])).
{ destruct (opposite (type p)); apply post_attr; by intros. }
intros [price|err] w1 ev1 [-> ->].
2: { apply drops_confirmed_quiet. by repeat constructor. }
xstep. apply post_order_send. intros ans e1. cbn beta iota. xrun.
2: { apply drops_confirmed_quiet. by repeat constructor. }
case_bool_decide as Hcode; xrun.
{ apply drops_confirmed_quiet. repeat constructor; try done.
  intros tk. rewrite closed_ticket_close_request.
  rewrite (bool_decide_false (retcode a = _)) by done.
  apply andb_false_r. }
assert (Hdone : retcode a = TRADE_RETCODE_DONE).
{ by destruct (decide (retcode a = TRADE_RETCODE_DONE)). }
assert (Hex : forall tk rest,
  Forall (fun ev => closed_ticket tk ev = false) rest ->
  existsb (closed_ticket tk)
    ([EvTick sym tick] ++ [] ++
     [EvOrderSend (close_request sym p price) (Some a)] ++ [] ++ rest)
  = bool_decide (ticket p = tk)).
{ intros tk rest Hrest. cbn [app existsb]. rewrite closed_ticket_close_request.
  rewrite (bool_decide_true (retcode a = _)) by done.
  replace (existsb (closed_ticket tk) rest) with false.
  - cbn. by rewrite andb_true_r, orb_false_r.
  - symmetry. induction Hrest as [|ev evs Hev _ IH]; [done|].
    simpl. by rewrite Hev, IH. }
destruct (active_trades (self w) !! ticket p) eqn:Hin; xrun.
- intros tk. rewrite Hex by (by repeat constructor). cbn.
  case_bool_decide as Htk.
  + subst tk. apply lookup_delete_eq.
  + by apply lookup_delete_ne.
- intros tk. rewrite Hex by (by repeat constructor).
  case_bool_decide as Htk; [by subst tk|done].
Qed.

Lemma close_trade_drops sym ptype only w :
post (close_trade sym ptype only) w (fun _ w' evs =>
  drops_confirmed (self w) (self w') evs).
Proof.
unfold close_trade. xrun.
apply post_positions_get. intros ans e Hans.
destruct ans as [[|p0 ps]|].
1, 3: xrun; apply drops_confirmed_quiet; by repeat constructor.
eapply post_mono.
{ apply (post_for_each (fun w' evs =>
    drops_confirmed (self w) (self w') evs)).
  - by apply drops_confirmed_quiet.
  - intros p w1 ev1 _ H1.
    destruct (skipped ptype only p).
    + xrun. by rewrite app_nil_r.
    + eapply post_mono; [apply close_position_drops|].
      simpl. intros _ w2 ev2 H2. by eapply drops_confirmed_app. }
simpl. intros r w' evs Hd.
destruct r as [[]|err]; xrun.
- apply (drops_confirmed_app _ (self w) _ [_] evs); [|done].
  apply drops_confirmed_quiet. by repeat constructor.
- apply (drops_confirmed_app _ (self w) _ [_] (evs ++ [_]));
    [apply drops_confirmed_quiet; by repeat constructor|].
  apply (drops_confirmed_app _ (self w') _ evs [_]); [done|].
  apply drops_confirmed_quiet. by repeat constructor.
Qed.

Lemma manage_position_drops sym t tick p w :
post (manage_position sym t tick p) w (fun _ w' evs =>
  drops_confirmed (self w) (self w') evs).
Proof.
unfold manage_position. xrun.
destruct (active_trades (self w) !! ticket p) as [info|];
  [|xrun; by apply drops_confirmed_quiet].
xstep.
eapply (post_mono _ _ (fun r w1 ev1 => w1 = w /\ ev1 = [])).
{ destruct (type p); apply post_attr; by intros. }
intros [price|e] w1 ev1 [-> ->]; [|by apply drops_confirmed_quiet].
cbn beta iota.
destruct (exit_rule _ _) as [rule|]; [|xrun; by apply drops_confirmed_quiet].
xrun. eapply post_mono; [apply close_trade_drops|].
simpl. intros _ w' evs Hd.
apply (drops_confirmed_app _ (self w) _ [_] evs); [|done].
apply drops_confirmed_quiet. by repeat constructor.
Qed.

(** X9. Shadow bookkeeping: after [close_trade] and after
  [manage_trades], the shadow map is the one before the call without
  the tickets whose closing order the terminal confirmed during the
  call; the entry of a ticket whose close failed, or that was not
  closed, is retained as it was. *)
Theorem shadow_map_drops_confirmed_closes sym ptype only w :
drops_confirmed (self w) (self (state_of (close_trade sym ptype only w)))
  (events_of (close_trade sym ptype only w)) /\
drops_confirmed (self w) (self (state_of (manage_trades sym w)))
  (events_of (manage_trades sym w)).
Proof.
split; [apply close_trade_drops|].
enough (post (manage_trades sym) w (fun _ w' evs =>
  drops_confirmed (self w) (self w') evs)) as H by exact H.
unfold manage_trades. xrun.
apply post_positions_get. intros ans e Hans.
destruct ans as [[|p0 ps]|].
1, 3: xrun; apply drops_confirmed_quiet; by repeat constructor.
xrun. apply post_now. intros t e1 _. xrun.
apply post_symbol_info_tick. intros tick e2. cbn beta iota.
eapply post_mono.
{ apply (post_for_each (fun w' evs =>
    drops_confirmed (self w) (self w') evs)).
  - by apply drops_confirmed_quiet.
  - intros p w1 ev1 _ H1.
    eapply post_mono; [apply manage_position_drops|].
    simpl. intros _ w2 ev2 H2. by eapply drops_confirmed_app. }
simpl. intros r w' evs Hd.
destruct r as [[]|err]; xrun.
- apply (drops_confirmed_app _ (self w) _ [_; _] evs); [|done].
  apply drops_confirmed_quiet. by repeat constructor.
- apply (drops_confirmed_app _ (self w) _ [_; _] (evs ++ [_]));
    [apply drops_confirmed_quiet; by repeat constructor|].
  apply (drops_confirmed_app _ (self w') _ evs [_]); [done|].
  apply drops_confirmed_quiet. by repeat constructor.
Qed.

(** X10. [manage_trades] does not manage positions it has no shadow
  entry for: when none of the listed positions has one, it submits no
  order and leaves the object as it was. *)
Theorem manage_ignores_unshadowed_positions sym w :
(forall p, p ∈ default [] (positions_get sym (env w)).1 ->
   active_trades (self w) !! ticket p = None) ->
self (state_of (manage_trades sym w)) = self w /\
Forall (fun ev => is_order ev = false) (events_of (manage_trades sym w)).
Proof.
intros Hnone.
enough (post (manage_trades sym) w (fun _ w' evs =>
  self w' = self w /\ Forall (fun ev => is_order ev = false) evs)) as H
  by exact H.
unfold manage_trades. xrun.
apply post_positions_get. intros ans e Hans. rewrite Hans in Hnone.
cbn [fst] in Hnone.
destruct ans as [[|p0 ps]|].
1, 3: xrun; split; [done|by repeat constructor].
xrun. apply post_now. intros t e1 _. xrun.
apply post_symbol_info_tick. intros tick e2. cbn beta iota.
eapply post_mono.
{ apply (post_for_each (fun w' evs => self w' = self w /\ evs = [])).
  - done.
  - intros p w1 ev1 Hp [Hs ->]. unfold manage_position. xrun.
    rewrite Hs, (Hnone p Hp). by xrun. }
simpl. intros r w' evs [Hs ->].
destruct r as [[]|err]; xrun; (split; [done|by repeat constructor]).
Qed.
End ShadowBookkeeping.

(** A listed position of someone else is left alone, whatever its age
    and profit. *)
Lemma manage_ignores_unshadowed_positions_witness :
  self (state_of (manage_trades EURUSD mixed_positions)) = self mixed_positions /\
  Forall (fun ev => is_order ev = false)
         (events_of (manage_trades EURUSD mixed_positions)).
Proof.
  apply (manage_ignores_unshadowed_positions EURUSD mixed_positions).
  intros p _. reflexivity.
Defined.

Section Opening.
Context {E : Type} `{!Terminal E}.
Implicit Types w : World E.

(** X11. A signal that is neither [buy] nor [sell] is refused:
  [execute_trade] returns [None], submits no order, closes nothing and
  leaves the object as it was. *)
Theorem invalid_signal_is_refused sig sym w :
sig <> "buy" -> sig <> "sell" ->
result_of (execute_trade sig sym w) = Ok None /\
self (state_of (execute_trade sig sym w)) = self w /\
Forall (fun ev => is_order ev = false) (events_of (execute_trade sig sym w)).
Proof.
intros Hbuy Hsell.
enough (post (execute_trade sig sym) w (fun r w' evs =>
  r = Ok None /\ self w' = self w /\
  Forall (fun ev => is_order ev = false) evs)) as H by exact H.
assert (Hsteps : forall w1, post (order_steps sig sym) w1 (fun r w' evs =>
  r = Ok None /\ self w' = self w1 /\
  Forall (fun ev => is_order ev = false) evs)).
{ intros w1. unfold order_steps, prepare_order.
  rewrite !bool_decide_false by done. xrun.
  repeat split. by repeat constructor. }
unfold execute_trade. xrun.
case_bool_decide; xrun; [repeat split; by repeat constructor|].
apply get_position_type_post. intros ans e _.
destruct ans as [[|first rest]|]; cbn beta iota.
1, 3: eapply post_mono; [apply Hsteps|];
      simpl; intros r w' evs (-> & -> & Hev); repeat split;
      by constructor.
case_bool_decide; [xrun; repeat split; by repeat constructor|].
xstep. xstep. cbn beta iota.
eapply post_mono; [apply Hsteps|].
simpl. intros r w' evs (-> & -> & Hev). repeat split.
by repeat constructor.
Qed.

(** ** A confirmed opening order *)

Lemma send_order_recorded sig req w :
post (send_order sig req) w (fun r w' evs =>
  match r with
  | Ok (Some res) =>
      retcode res = TRADE_RETCODE_DONE ->
      last_signal (self w') = Some sig /\
      trade_amount (self w') = trade_amount (self w) /\
      EvOrderSend req (Some res) ∈ evs /\
      (exists info, active_trades (self w') !! order res = Some info /\
         entry_price info = rq_price req) /\
      (forall tk, tk <> order res ->
         active_trades (self w') !! tk = active_trades (self w) !! tk)
  | _ => True
  end).
Proof.
unfold send_order. xstep.
apply post_order_send. intros ans e. cbn beta iota. xrun; [|done].
case_bool_decide as Hcode; xrun; [|done].
apply post_now. intros t e1 _. xrun.
intros _. repeat split.
- apply elem_of_cons. by left.
- eexists. split; [apply lookup_insert_eq|done].
- intros tk Htk. by apply lookup_insert_ne.
Qed.

Lemma closing_events_not_opening listed only evs :
Forall (fun ev => closing_event listed only ev = true) evs ->
Forall (fun ev => is_opening_order ev = false) evs.
Proof.
intros Hc. eapply Forall_impl; [exact Hc|].
intros [| | |req ans]; try done. simpl.
destruct (rq_position req); [|done]. intros _.
by apply bool_decide_eq_false.
Qed.

Lemma prepare_side sig sym w name (field : Tick -> float) ty :
sig = type_name ty ->
(forall t, field t = opening_price ty t) ->
post (close_trade sym (Some name) None ;;
      me <- get_self ;;
      tick <- mt5_symbol_info_tick sym ;;
      price <- attr field tick ;;
      ret (Some (open_request sym (trade_amount me) ty price))) w
  (fun r w' evs =>
    shadow_step (self w) (self w') evs /\
    Forall (fun ev => is_opening_order ev = false) evs /\
    match r with
    | Ok (Some req) =>
        exists ty tick,
          sig = type_name ty /\ EvTick sym (Some tick) ∈ evs /\
          req = open_request sym (trade_amount (self w)) ty
                  (opening_price ty tick)
    | Ok None => Forall (fun ev => is_order ev = false) evs
    | Raise _ => True
    end).
Proof.
intros Hsig Hfield. xstep.
eapply post_mono; [apply close_trade_post|].
simpl. intros r w1 ev1 (-> & Hs & rest & -> & Hrest). xrun.
apply post_symbol_info_tick. intros tick e. cbn beta iota.
assert (Hs' : forall suf,
  shadow_step (self w) (self w1)
    ((EvPositionsGet sym (positions_get sym (env w)).1 :: rest) ++ suf)).
{ intros suf. eapply shadow_step_mono; [exact Hs|].
  intros ev Hev. apply elem_of_app. by left. }
assert (Hno : forall suf,
  Forall (fun ev => is_order ev = false) suf ->
  Forall (fun ev => is_opening_order ev = false)
    ((EvPositionsGet sym (positions_get sym (env w)).1 :: rest) ++ suf)).
{ intros suf Hsuf. apply Forall_app. split.
  - constructor; [done|]. by eapply closing_events_not_opening.
  - eapply Forall_impl; [exact Hsuf|]. by intros [| | |]. }
destruct tick as [t|]; cbn [attr]; xrun.
- split; [apply Hs'|]. split; [apply Hno; by repeat constructor|].
  exists ty, t. split; [done|]. split.
  + apply elem_of_app. right. by apply elem_of_cons; left.
  + destruct Hs as (-> & _). by rewrite Hfield.
- split; [apply Hs'|]. split; [apply Hno; by repeat constructor|done].
Qed.

Lemma prepare_order_request sig sym w :
post (prepare_order sig sym) w (fun r w' evs =>
  shadow_step (self w) (self w') evs /\
  Forall (fun ev => is_opening_order ev = false) evs /\
  match r with
  | Ok (Some req) =>
      exists ty tick,
        sig = type_name ty /\ EvTick sym (Some tick) ∈ evs /\
        req = open_request sym (trade_amount (self w)) ty
                (opening_price ty tick)
  | Ok None => Forall (fun ev => is_order ev = false) evs
  | Raise _ => True
  end).
Proof.
unfold prepare_order. case_bool_decide as Hbuy.
{ by apply (prepare_side sig sym w "sell" ask ORDER_TYPE_BUY). }
case_bool_decide as Hsell.
{ by apply (prepare_side sig sym w "buy" bid ORDER_TYPE_SELL). }
xrun. split; [apply shadow_step_same|]. split; by repeat constructor.
Qed.

Lemma send_order_events sig req w :
post (send_order sig req) w (fun _ _ evs =>
  exists ans rest, evs = EvOrderSend req ans :: rest /\
    Forall (fun ev => is_order ev = false) rest).
Proof.
unfold send_order. xstep.
apply post_order_send. intros ans e. cbn beta iota. xrun.
2: { eexists _, _. split; [reflexivity|done]. }
case_bool_decide as Hcode; xrun.
- apply post_now. intros t e1 _. xrun.
  eexists _, _. split; [reflexivity|]. by repeat constructor.
- eexists _, _. split; [reflexivity|]. by repeat constructor.
Qed.

Lemma recorded_prefix sig before r after pre evs :
recorded sig before r after evs -> recorded sig before r after (pre ++ evs).
Proof.
destruct r as [[res|]|]; try done. intros H Hcode.
destruct (H Hcode) as (? & ? & req & info & ? & ?).
repeat split; try done. exists req, info. split; [|done].
apply elem_of_app. by right.
Qed.

Lemma order_steps_recorded sig sym w :
post (order_steps sig sym) w (fun r w' evs =>
  recorded sig (self w) r (self w') evs).
Proof.
unfold order_steps. xstep.
eapply post_mono; [apply prepare_order_request|].
simpl. intros [[req|]|e] w1 ev1 (Hs & _ & Hreq); xrun; try done.
destruct Hreq as (ty & tick & _ & _ & ->).
eapply post_mono; [apply send_order_recorded|].
simpl. intros [[res|]|e] w2 ev2 H2; try done.
intros Hcode. destruct (H2 Hcode) as (Hl & Ha & Hin & (info & Hi & Hp) & _).
destruct Hs as (Ha1 & _).
split; [done|]. split; [congruence|].
eexists _, info. split; [apply elem_of_app; right; exact Hin|].
by repeat split.
Qed.

(** X12. A confirmed opening order is recorded: when [execute_trade]
  returns a result with return code [TRADE_RETCODE_DONE], [last_signal]
  is the signal, and the shadow map has an entry under the returned
  order number whose entry price is the price of the opening request,
  a request for the volume [trade_amount]. *)
Theorem confirmed_open_is_recorded sig sym w res :
result_of (execute_trade sig sym w) = Ok (Some res) ->
retcode res = TRADE_RETCODE_DONE ->
let after := self (state_of (execute_trade sig sym w)) in
last_signal after = Some sig /\
trade_amount after = trade_amount (self w) /\
exists req info,
  EvOrderSend req (Some res) ∈ events_of (execute_trade sig sym w) /\
  rq_position req = None /\
  rq_volume req = trade_amount (self w) /\
  active_trades after !! order res = Some info /\
  entry_price info = rq_price req.
Proof.
intros Hres Hcode. cbn zeta.
enough (post (execute_trade sig sym) w (fun r w' evs =>
  recorded sig (self w) r (self w') evs)) as H.
{ unfold post in H. rewrite Hres in H. by apply H. }
clear Hres Hcode res.
unfold execute_trade. xrun.
case_bool_decide; xrun; [done|].
apply get_position_type_post. intros ans e _.
assert (Hsteps : post (order_steps sig sym) {| env := e; self := self w |}
  (fun r w' evs => forall pre, recorded sig (self w) r (self w') (pre ++ evs))).
{ eapply post_mono; [apply order_steps_recorded|].
  simpl. intros r w' evs Hr pre. by apply recorded_prefix. }
destruct ans as [[|first rest]|]; cbn beta iota.
1, 3: eapply post_mono; [apply Hsteps|];
      simpl; intros r w' evs Hr; apply (Hr [_]).
case_bool_decide; [by xrun|].
xstep. xstep. cbn beta iota.
eapply post_mono; [apply Hsteps|].
simpl. intros r w' evs Hr. apply (Hr [_; _]).
Qed.

Lemma one_opening_order_last_prefix sig sym amount pre evs :
Forall (fun ev => is_order ev = false) pre ->
one_opening_order_last sig sym amount evs ->
one_opening_order_last sig sym amount (pre ++ evs).
Proof.
intros Hpre.
assert (Hpre' : Forall (fun ev => is_opening_order ev = false) pre).
{ eapply Forall_impl; [exact Hpre|]. by intros [| | |]. }
intros [Hno|(p & ans & rest & ty & tick & -> & ? & ? & ? & ?)].
- left. by apply Forall_app.
- right. exists (pre ++ p), ans, rest, ty, tick.
  rewrite <- app_assoc. repeat split; try done.
  + apply elem_of_app. by right.
  + by apply Forall_app.
Qed.

Lemma order_steps_one_opening sig sym w :
post (order_steps sig sym) w (fun _ _ evs =>
  one_opening_order_last sig sym (trade_amount (self w)) evs).
Proof.
unfold order_steps. xstep.
eapply post_mono; [apply prepare_order_request|].
simpl. intros [[req|]|e] w1 ev1 (_ & Hno & Hreq); xrun.
- destruct Hreq as (ty & tick & Hsig & Htick & ->).
  eapply post_mono; [apply send_order_events|].
  simpl. intros _ _ ev2 (ans & rest & -> & Hrest).
  right. by exists ev1, ans, rest, ty, tick.
- left. by rewrite app_nil_r.
- by left.
Qed.

(** X13. The orders of [execute_trade]: a call submits at most one
  opening order; it is the last order of the call, so every close of an
  opposite position precedes it; it asks for the volume [trade_amount]
  in the direction of the signal, at the ask of a quote received before
  it for a buy and at the bid for a sell. *)
Theorem execute_trade_one_opening_order_last sig sym w :
one_opening_order_last sig sym (trade_amount (self w))
  (events_of (execute_trade sig sym w)).
Proof.
enough (post (execute_trade sig sym) w (fun _ _ evs =>
  one_opening_order_last sig sym (trade_amount (self w)) evs)) as H
  by exact H.
unfold execute_trade. xrun.
case_bool_decide; xrun; [left; by repeat constructor|].
apply get_position_type_post. intros ans e _.
assert (Hsteps : post (order_steps sig sym) {| env := e; self := self w |}
  (fun _ _ evs => forall pre,
     Forall (fun ev => is_order ev = false) pre ->
     one_opening_order_last sig sym (trade_amount (self w)) (pre ++ evs))).
{ eapply post_mono; [apply order_steps_one_opening|].
  simpl. intros _ _ evs Hr pre Hpre.
  by apply one_opening_order_last_prefix. }
destruct ans as [[|first rest]|]; cbn beta iota.
1, 3: eapply post_mono; [apply Hsteps|];
      simpl; intros r w' evs Hr; apply (Hr [_]); by repeat constructor.
case_bool_decide; [xrun; left; by repeat constructor|].
xstep. xstep. cbn beta iota.
eapply post_mono; [apply Hsteps|].
simpl. intros r w' evs Hr. apply (Hr [_; _]). by repeat constructor.
Qed.

(** ** A terminal without quotes *)

Lemma close_trade_no_quotes sym ptype only w :
no_quotes E ->
post (close_trade sym ptype only) w (fun r w' evs =>
  r = Ok tt /\ self w' = self w /\
  Forall (fun ev => is_order ev = false) evs).
Proof.
intros Hnq. unfold close_trade. xrun.
apply post_positions_get. intros ans e Hans.
destruct ans as [[|p0 ps]|].
1, 3: xrun; repeat split; by repeat constructor.
eapply post_mono.
{ apply (post_for_each (fun w' evs =>
    self w' = self w /\ Forall (fun ev => is_order ev = false) evs)).
  - done.
  - intros p w1 ev1 _ [Hs Hev].
    destruct (skipped ptype only p).
    + xrun. by rewrite app_nil_r.
    + unfold close_position. xstep.
      apply post_tick_answer. intros tick e1 Htick.
      pose proof (Hnq sym (env w1)) as Hnone. rewrite Htick in Hnone.
      simpl in Hnone. subst tick. cbn beta iota.
      destruct (opposite (type p)); xrun.
      all: split; [done|]; apply Forall_app; split; [done|];
        by repeat constructor. }
simpl. intros r w' evs [Hs Hev].
destruct r as [[]|err]; xrun; repeat split; try done.
- by constructor.
- constructor; [done|]. apply Forall_app. split; [done|].
  by repeat constructor.
Qed.

(** X14. Without a quote no order goes out: on a terminal whose
  [symbol_info_tick] answers [None], [execute_trade] submits no order
  and leaves the object as it was. It returns [None] exactly where the
  signal is suppressed (it repeats [last_signal], or the first listed
  position is in its direction) or invalid; for every other signal the
  [AttributeError] of reading the price leaves the method. *)
Theorem no_quote_no_order sig sym w :
no_quotes E ->
let out := execute_trade sig sym w in
result_of out =
  (if reads_quote sig sym w then Raise AttributeError else Ok None) /\
self (state_of out) = self w /\
Forall (fun ev => is_order ev = false) (events_of out).
Proof.
intros Hnq. cbn zeta.
enough (post (execute_trade sig sym) w (fun r w' evs =>
  r = (if reads_quote sig sym w then Raise AttributeError else Ok None) /\
  self w' = self w /\
  Forall (fun ev => is_order ev = false) evs)) as H by exact H.
assert (Hside : forall w1 name (field : Tick -> float) ty,
  post (close_trade sym (Some name) None ;;
        me <- get_self ;;
        tick <- mt5_symbol_info_tick sym ;;
        price <- attr field tick ;;
        ret (Some (open_request sym (trade_amount me) ty price))) w1
    (fun r w' evs =>
       r = Raise AttributeError /\ self w' = self w1 /\
       Forall (fun ev => is_order ev = false) evs)).
{ intros w1 name field ty. xstep.
  eapply post_mono; [by apply close_trade_no_quotes|].
  simpl. intros r w2 ev2 (-> & Hs & Hev). xrun.
  apply post_tick_answer. intros tick e1 Htick.
  pose proof (Hnq sym (env w2)) as Hnone. rewrite Htick in Hnone.
  simpl in Hnone. subst tick. cbn beta iota. xrun.
  repeat split; [done|]. apply Forall_app. split; [done|].
  by repeat constructor. }
assert (Hsteps : forall w1, post (order_steps sig sym) w1 (fun r w' evs =>
  r = (if bool_decide (sig = "buy") || bool_decide (sig = "sell")
       then Raise AttributeError else Ok None) /\
  self w' = self w1 /\
  Forall (fun ev => is_order ev = false) evs)).
{ intros w1. unfold order_steps, prepare_order. xstep.
  repeat case_bool_decide; cbn [orb];
    first [ eapply post_mono; [apply Hside|];
            simpl; intros r w2 ev2 (-> & Hs & Hev); by split
          | xrun; split; [done|]; split; [done|]; by repeat constructor ]. }
unfold execute_trade, reads_quote. xrun.
destruct (bool_decide_reflect (Some sig = last_signal (self w)))
  as [Hlast|Hlast]; xrun.
{ split; [done|]. split; [done|by repeat constructor]. }
cbn [negb andb].
apply get_position_type_post. intros ans e Hans.
unfold first_listed. rewrite Hans. cbn [fst].
destruct ans as [[|first rest]|]; cbn beta iota.
1, 3: rewrite (bool_decide_false (None = Some sig)) by done;
      cbn [negb andb];
      eapply post_mono; [apply Hsteps|];
      simpl; intros r w' evs (Hr & -> & Hev); repeat split; try done;
      by constructor.
destruct (bool_decide_reflect (sig = type_name (type first)))
  as [Hsame|Hother].
- rewrite bool_decide_true by (by rewrite Hsame).
  xrun. split; [done|]. split; [done|by repeat constructor].
- rewrite (bool_decide_false (Some (type_name (type first)) = Some sig))
    by (intros [= Heq]; by rewrite Heq in Hother).
  cbn [negb andb]. xstep. xstep. cbn beta iota.
  eapply post_mono; [apply Hsteps|].
  simpl. intros r w' evs (Hr & -> & Hev). repeat split; try done.
  by repeat constructor.
Qed.

(** ** The exit policy at the opening price *)

Lemma sub_self_zero (x : float) :
is_finite x = true -> F64.sub x x = S754_zero false.
Proof.
destruct x as [[]| | |s m e]; try done. intros _.
unfold F64.sub, SFsub.
match goal with
| |- binary_normalize _ _ ?d _ _ = _ =>
    replace d with 0%Z; [done|]
end.
match goal with
| |- _ = IntDef.Z.sub ?a ?a => generalize a
end.
intros a. change (0 = a - a)%Z. lia.
Qed.

Lemma mul_zero_finite s (x : float) :
is_finite x = true -> exists s', F64.mul (S754_zero s) x = S754_zero s'.
Proof. destruct x as [[]| | |[] m e]; try done; intros _; by eexists. Qed.

(** X15. A position quoted at its opening price has a profit of zero
  and is left open by the exit policy, however long it has been held
  (prices and volume being numbers). *)
Theorem break_even_is_kept position time_open :
is_finite (price_open position) = true ->
is_finite (volume position) = true ->
F64.eqb (calculate_profit position (price_open position)) (F64.of_int 0) = true /\
exit_rule time_open (calculate_profit position (price_open position)) = None.
Proof.
intros Hprice Hvol.
assert (exists s, calculate_profit position (price_open position) = S754_zero s)
  as [s ->].
{ unfold calculate_profit. destruct (type position).
  all: rewrite sub_self_zero by done.
  all: destruct (mul_zero_finite false (volume position) Hvol) as [s1 ->].
  all: by destruct (mul_zero_finite s1 (F64.of_int 100000)) as [s2 ->];
         [|exists s2]. }
split; [by destruct s|].
unfold exit_rule. destruct (held_long_enough time_open); by destruct s.
Qed.

(** X16. [has_open_positions] and [get_position_type] agree: asked in
  the same state of the terminal, the first answers [True] exactly when
  the second names a direction, and neither raises. *)
Theorem has_open_positions_iff_position_type sym w :
(exists b, result_of (has_open_positions sym w) = Ok b /\
   (b = true <->
    exists name, result_of (get_position_type sym w) = Ok (Some name))) /\
(exists answer, result_of (get_position_type sym w) = Ok answer).
Proof.
unfold has_open_positions, get_position_type, bind, mt5_positions_get,
  result_of.
destruct (positions_get sym (env w)) as [[[|first rest]|] e]; cbn.
all: split; [|by eexists].
all: eexists; split; [reflexivity|]; split; try done.
- by intros [name [=]].
- intros _. by eexists.
- by intros [name [=]].
Qed.
End Opening.

Lemma invalid_signal_is_refused_witness :
  result_of (execute_trade "hold" EURUSD mixed_positions) = Ok None /\
  self (state_of (execute_trade "hold" EURUSD mixed_positions))
    = self mixed_positions /\
  Forall (fun ev => is_order ev = false)
         (events_of (execute_trade "hold" EURUSD mixed_positions)).
Proof.
  apply (invalid_signal_is_refused "hold" EURUSD mixed_positions); discriminate.
Defined.

Lemma confirmed_open_is_recorded_witness :
  last_signal (self (state_of (execute_trade "buy" EURUSD stale_scenario)))
    = Some "buy".
Proof.
  apply (confirmed_open_is_recorded "buy" EURUSD stale_scenario
           {| retcode := TRADE_RETCODE_DONE; order := 1 |}); reflexivity.
Defined.

Lemma no_quote_no_order_witness :
  result_of (execute_trade "buy" EURUSD {| env := offline; self := init lot |})
    = Raise AttributeError /\
  self (state_of (execute_trade "buy" EURUSD
                    {| env := offline; self := init lot |})) = init lot /\
  Forall (fun ev => is_order ev = false)
    (events_of (execute_trade "buy" EURUSD
                  {| env := offline; self := init lot |})).
Proof.
  assert (Hnq : no_quotes Offline) by (intros symbol e; reflexivity).
  exact (no_quote_no_order "buy" EURUSD {| env := offline; self := init lot |}
           Hnq).
Defined.

Lemma break_even_is_kept_witness :
  exit_rule (3600 * 1000000)
    (calculate_profit (a_position 1 ORDER_TYPE_BUY) one) = None.
Proof.
  apply (break_even_is_kept (a_position 1 ORDER_TYPE_BUY) (3600 * 1000000));
    reflexivity.
Defined.

(* ===================================================================== *)
(** * Properties of the control loop *)
(* ===================================================================== *)

Lemma valid_signal_row closes i :
  valid_signal (row_signal closes i) = row_signal closes i.
Proof.
  unfold row_signal.
  destruct (F64.ltb _ _); [done|].
  destruct (F64.eqb _ _); [done|]. by destruct (F64.eqb _ _).
Qed.


Lemma iloc_last_signals {py_float : FloatOfStr} d closes n :
  bar_series d closes -> nrows d = S n ->
  iloc_last (ObjectCol (signals_of (nrows d) closes)) =
    inr (row_signal closes n).
Proof.
  intros [Hc Hlen] Hn. unfold iloc_last.
  rewrite last_lookup.
  rewrite <- Hlen at 1. rewrite length_signals_of, Hlen, Hn. cbn [pred].
  rewrite signals_of_row by lia. done.
Qed.

Lemma apply_strategy_only_logs {py_float : FloatOfStr} d :
  Forall (fun ev => is_terminal_call ev = false) (events_of (apply_strategy d)).
Proof.
  destruct (closes_of d) as [xs|] eqn:Hc.
  - enough (post apply_strategy d (fun _ _ evs =>
      Forall (fun ev => is_terminal_call ev = false) evs)) as H by exact H.
    destruct (closes_of_column d xs Hc) as (c & Hl & Hv).
    unfold apply_strategy. apply post_try_except. unfold strategy_body.
    repeat step. rewrite Hl. repeat step.
    eapply post_intro; [apply Hv|]. cbn beta iota.
    repeat step.
    simpl_map. repeat step.
    eapply post_intro; [apply Hv|]. run.
    destruct (last_valid_index _); run; cbn [app]; by repeat constructor.
  - destruct (strategy_body_no_closes d Hc) as [e Hr].
    destruct (strategy_body_raises d e Hr) as [_ Hev].
    unfold apply_strategy, try_except, result_of, events_of in *.
    destruct (strategy_body d) as [[r s] evs]; simpl in *. subst.
    by repeat constructor.
Qed.

Section ControlLoopFacts.
Context {E : Type} `{!Terminal E} {py_float : FloatOfStr}.
Variable SYMBOL : string.
Implicit Types w : World E.

Lemma slept_app evs1 evs2 : slept (evs1 ++ evs2) = slept evs1 ++ slept evs2.
Proof. unfold slept. apply omap_app. Qed.

Lemma slept_from_calls evs : slept (from_calls evs) = [].
Proof. unfold slept, from_calls. by induction evs. Qed.

Lemma calls_of_app evs1 evs2 :
calls_of (evs1 ++ evs2) = calls_of evs1 ++ calls_of evs2.
Proof. unfold calls_of. apply omap_app. Qed.

Lemma calls_of_from_calls evs : calls_of (from_calls evs) = evs.
Proof.
unfold calls_of, from_calls. induction evs as [|ev evs IH]; [done|].
cbn. by rewrite IH.
Qed.

Lemma terminal_calls_app evs1 evs2 :
terminal_calls (evs1 ++ evs2) = terminal_calls evs1 ++ terminal_calls evs2.
Proof. unfold terminal_calls. by rewrite calls_of_app, filter_app. Qed.

Lemma terminal_calls_strategy d :
terminal_calls (from_calls (events_of (apply_strategy d))) = [].
Proof.
unfold terminal_calls. rewrite calls_of_from_calls.
pose proof (apply_strategy_only_logs d) as H.
induction H as [|ev evs Hev _ IH]; [done|].
rewrite filter_cons_False; [done|]. by rewrite Hev.
Qed.

Lemma terminal_calls_from_calls evs :
terminal_calls (from_calls evs) =
  filter (fun ev => is_terminal_call ev = true) evs.
Proof. unfold terminal_calls. by rewrite calls_of_from_calls. Qed.

Ltac drop_loop_logs :=
repeat match goal with
       | |- context [terminal_calls (?x :: ?l)] =>
           change (terminal_calls (x :: l)) with (@nil Event)
       end;
cbn [app]; rewrite ?app_nil_r, ?filter_app.

Lemma cycle_on_bar_series d closes n w :
bar_series d closes -> nrows d = S n ->
(cycle SYMBOL (Some d) w).1 = (follows SYMBOL (row_signal closes n) w).1.1 /\
slept (cycle SYMBOL (Some d) w).2 = (follows SYMBOL (row_signal closes n) w).1.2 /\
terminal_calls (cycle SYMBOL (Some d) w).2 =
  filter (fun ev => is_terminal_call ev = true)
         (follows SYMBOL (row_signal closes n) w).2.
Proof.
intros Hbars Hn. pose proof Hbars as [Hc Hlen].
destruct (apply_strategy_signal d closes Hc) as (out & Hout & Hsig).
unfold apply_strategy_value in Hout.
destruct (result_of (apply_strategy d)) as [out'|] eqn:Hres; [|done].
injection Hout as ->.
unfold cycle, iteration. rewrite Hres, Hsig.
rewrite (iloc_last_signals d closes n Hbars Hn).
rewrite valid_signal_row. unfold follows, manage_step.
pose proof (terminal_calls_strategy d) as Hstrat.
destruct (row_signal closes n) as [sig|].
- destruct (result_of (execute_trade sig SYMBOL w)) as [r|e].
  + destruct (manage_trades_post SYMBOL (state_of (execute_trade sig SYMBOL w)))
      as [-> _].
    cbn [fst snd]. split; [done|].
    rewrite !slept_app, !terminal_calls_app, !slept_from_calls,
      !terminal_calls_from_calls.
    change (LoopLog (DataFetched (nrows d))
            :: from_calls (events_of (apply_strategy d)))
      with ([LoopLog (DataFetched (nrows d))]
            ++ from_calls (events_of (apply_strategy d))).
    rewrite !slept_app, !terminal_calls_app, !slept_from_calls, Hstrat.
    split; [done|]. by drop_loop_logs.
  + cbn [fst snd]. split; [done|].
    rewrite !slept_app, !terminal_calls_app, !slept_from_calls,
      !terminal_calls_from_calls.
    change (LoopLog (DataFetched (nrows d))
            :: from_calls (events_of (apply_strategy d)))
      with ([LoopLog (DataFetched (nrows d))]
            ++ from_calls (events_of (apply_strategy d))).
    rewrite !slept_app, !terminal_calls_app, !slept_from_calls, Hstrat.
    split; [done|]. by drop_loop_logs.
- destruct (manage_trades_post SYMBOL w) as [-> _].
  cbn [fst snd]. split; [done|].
  rewrite !slept_app, !terminal_calls_app, !slept_from_calls,
    !terminal_calls_from_calls.
  change (LoopLog (DataFetched (nrows d))
          :: from_calls (events_of (apply_strategy d)))
    with ([LoopLog (DataFetched (nrows d))]
          ++ from_calls (events_of (apply_strategy d))).
  rewrite !slept_app, !terminal_calls_app, !slept_from_calls, Hstrat.
  split; [done|]. by drop_loop_logs.
Qed.



(** X17. A cycle whose fetched frame has no usable close prices (the
  [close] column is missing, or it holds text that [float] refuses)
  and no [signal] column stops at the guard of line 50: the executor
  is as it was, the terminal is not called, neither for an order nor
  to manage the open trades, and the loop sleeps its normal 10
  seconds. *)
Theorem cycle_without_close_prices d w :
closes_of d = None -> columns d !! "signal" = None ->
(cycle SYMBOL (Some d) w).1 = w /\
terminal_calls (cycle SYMBOL (Some d) w).2 = [] /\
slept (cycle SYMBOL (Some d) w).2 = [10].
Proof.
intros Hc Hsig.
destruct (apply_strategy_no_closes d Hc) as [Hres _].
pose proof (terminal_calls_strategy d) as Hstrat.
unfold cycle, iteration. rewrite Hres, Hsig. cbn [fst snd].
split; [done|].
change (LoopLog (DataFetched (nrows d))
        :: from_calls (events_of (apply_strategy d)))
  with ([LoopLog (DataFetched (nrows d))]
        ++ from_calls (events_of (apply_strategy d))).
rewrite !slept_app, !terminal_calls_app, !slept_from_calls, Hstrat.
split; [|done]. by drop_loop_logs.
Qed.

(** X18. A cycle trades on the signal of the last row of a bar series
  of at least one bar, and on no other row: a [buy] or [sell] there is
  executed and the trades are then managed, any other value leads to
  managing only. An exception that leaves [execute_trade] skips the
  managing of that cycle and turns the sleep of 10 seconds into one
  of 60. *)
Theorem cycle_trades_on_last_row d closes n w :
bar_series d closes -> nrows d = S n ->
(cycle SYMBOL (Some d) w).1 = (follows SYMBOL (row_signal closes n) w).1.1 /\
slept (cycle SYMBOL (Some d) w).2 = (follows SYMBOL (row_signal closes n) w).1.2 /\
terminal_calls (cycle SYMBOL (Some d) w).2 =
  filter (fun ev => is_terminal_call ev = true)
         (follows SYMBOL (row_signal closes n) w).2.
Proof. apply cycle_on_bar_series. Qed.

End ControlLoopFacts.

(** ** Cycles in the scenarios *)

Section LoopScenarios.
#[local] Existing Instance no_numerals.

Lemma cycle_without_close_prices_witness :
  (cycle EURUSD (Some frame_without_close) stale_scenario).1 = stale_scenario /\
  terminal_calls (cycle EURUSD (Some frame_without_close) stale_scenario).2 = [] /\
  slept (cycle EURUSD (Some frame_without_close) stale_scenario).2 = [10].
Proof.
  apply (cycle_without_close_prices EURUSD frame_without_close stale_scenario);
    reflexivity.
Defined.

(** The eight bars of the scenario end in a [buy]: the cycle opens a
    position. *)
Lemma cycle_trades_on_last_row_witness :
  (cycle EURUSD (Some (frame_of_closes eight_closes)) stale_scenario).1 =
    (follows EURUSD (row_signal (F64.of_int <$> eight_closes) 7)
       stale_scenario).1.1.
Proof.
  apply (cycle_trades_on_last_row EURUSD (frame_of_closes eight_closes)
           (F64.of_int <$> eight_closes) 7 stale_scenario).
  - split; reflexivity.
  - reflexivity.
Defined.

End LoopScenarios.
